(** * ping-mon5api: the heartbeat worker and its window, embedded from [main.py]

    [PingWorker.run] is a loop of cycles: a delivery phase (up to
    [MAX_RETRIES] POST attempts with an exponential, interruptible backoff)
    followed by an interval countdown of [INTERVAL] one-second steps.  The
    worker talks to three things it does not control: the HTTP endpoint, the
    stop event set from the GUI thread, and the Qt signals/log it writes to.
    The embedding makes all three explicit: an environment gives the result of
    every POST and the moment from which [is_set()] answers [True], and every
    program returns the list of events it performed, in order. *)

From Stdlib Require Import ZArith List Bool Lia Arith.
Import ListNotations.

(** ** Python strings *)

(** A Python [str] is a sequence of Unicode code points. *)
Definition codepoint := N.
Definition pystr := list codepoint.

Module PyStr.

Local Open Scope N_scope.

(** [len(s)] *)
Definition len (s : pystr) : nat := length s.

(** [s[:n]] for a non-negative [n] *)
Definition slice_to (n : nat) (s : pystr) : pystr := firstn n s.

(** [str.isspace] on one code point: the characters [str.strip()] removes. *)
Definition isspace (c : codepoint) : bool :=
  ((9 <=? c) && (c <=? 13)) || ((28 <=? c) && (c <=? 32))
  || (c =? 133) || (c =? 160) || (c =? 5760)
  || ((8192 <=? c) && (c <=? 8202))
  || (c =? 8232) || (c =? 8233) || (c =? 8239) || (c =? 8287) || (c =? 12288).

Fixpoint lstrip (s : pystr) : pystr :=
  match s with
  | [] => []
  | c :: t => if isspace c then lstrip t else s
  end.

Definition rstrip (s : pystr) : pystr := rev (lstrip (rev s)).

(** [s.strip()] *)
Definition strip (s : pystr) : pystr := rstrip (lstrip s).

Fixpoint digits (u : Decimal.uint) : pystr :=
  match u with
  | Decimal.Nil => []
  | Decimal.D0 r => 48 :: digits r
  | Decimal.D1 r => 49 :: digits r
  | Decimal.D2 r => 50 :: digits r
  | Decimal.D3 r => 51 :: digits r
  | Decimal.D4 r => 52 :: digits r
  | Decimal.D5 r => 53 :: digits r
  | Decimal.D6 r => 54 :: digits r
  | Decimal.D7 r => 55 :: digits r
  | Decimal.D8 r => 56 :: digits r
  | Decimal.D9 r => 57 :: digits r
  end.

(** [str(n)] and [f"{n}"] for an [int] *)
Definition of_int (z : Z) : pystr :=
  match Z.to_int z with
  | Decimal.Pos u => digits u
  | Decimal.Neg u => 45 :: digits u
  end.

Definition zfill (width : nat) (s : pystr) : pystr :=
  repeat 48 (width - length s) ++ s.

(** [f"{n:02d}"]: zero padding to width 2, the sign counted in the width *)
Definition format_02d (z : Z) : pystr :=
  if (z <? 0)%Z then 45 :: zfill 1 (of_int (Z.abs z))
  else zfill 2 (of_int z).

(** ["..."] *)
Definition ellipsis : pystr := [46; 46; 46].

End PyStr.

(** ** Configuration (module-level constants of [main.py]) *)

Definition INTERVAL : Z := 300.
Definition MAX_RETRIES : Z := 3.
Definition INITIAL_RETRY_DELAY : Z := 2.
Definition REQUEST_TIMEOUT : Z := 10.

(** [range(lo, hi)] *)
Definition range (lo hi : Z) : list Z :=
  map (fun i => (lo + Z.of_nat i)%Z) (seq 0 (Z.to_nat (hi - lo))).

(** ** The HTTP exchange *)

(** The request body [{"identifier": self.identifier, "name": "vps"}]. *)
Record Payload := mkPayload { p_identifier : pystr; p_name : pystr }.

Definition vps : pystr := [118; 112; 115]%N.

(** What [run] reads from a [requests.Response]: [status_code], the result of
    [str(resp.json())] when the body decodes ([None] when [json()] raises), and
    [text]. *)
Record Response := mkResponse {
  status_code : Z;
  json_str : option pystr;
  text : pystr
}.

(** [requests.post] either returns a response or raises; [Raised e] carries
    [str(e)]. *)
Inductive PostResult :=
| Returned (resp : Response)
| Raised (e : pystr).

(** Lines 56-60: [str(resp.json())], or [resp.text.strip()] when decoding
    fails. *)
Definition body_str (resp : Response) : pystr :=
  match json_str resp with
  | Some s => s
  | None => PyStr.strip (text resp)
  end.

(** Line 62:
    [(body_str[:300] + "...") if len(body_str) > 300 else body_str] *)
Definition display_body (body : pystr) : pystr :=
  if (300 <? PyStr.len body)%nat
  then PyStr.slice_to 300 body ++ PyStr.ellipsis
  else body.

(** Line 63: [200 <= code < 300] *)
Definition is_2xx (code : Z) : bool := ((200 <=? code) && (code <? 300))%Z.

(** Lines 77-79: [INITIAL_RETRY_DELAY * (2 ** (attempt - 1))], capped at 30. *)
Definition retry_delay (attempt : Z) : Z :=
  let delay := (INITIAL_RETRY_DELAY * 2 ^ (attempt - 1))%Z in
  if (delay >? 30)%Z then 30%Z else delay.

(** ** What the worker does to the outside world *)

(** The four texts sent on [status_signal], with the values interpolated in
    them. *)
Inductive StatusMsg :=
| SendOk (code : Z) (shown : pystr)         (* line 64 *)
| Non2xx (code : Z) (shown : pystr)         (* line 68 *)
| SendError (attempt : Z) (err : pystr)     (* line 75 *)
| AllFailed.                                (* line 87 *)

Module Text.

Local Open Scope N_scope.

Definition ok_open : pystr :=
  [1575; 1585; 1587; 1575; 1604; 32; 1605; 1608; 1601; 1602; 32; 40].
Definition close_dash : pystr := [41; 32; 8212; 32].
Definition non2xx_open : pystr := [1662; 1575; 1587; 1582; 32].
Definition dash : pystr := [32; 8212; 32].
Definition error_open : pystr :=
  [1582; 1591; 1575; 32; 1583; 1585; 32; 1575; 1585; 1587; 1575; 1604; 32;
   40; 1578; 1604; 1575; 1588; 32].
Definition all_failed : pystr :=
  [1575; 1585; 1587; 1575; 1604; 32; 1606; 1575; 1605; 1608; 1601; 1602; 32;
   1662; 1587; 32; 1575; 1586; 32; 1578; 1604; 1575; 1588; 8204; 1607; 1575;
   32; 10060].

Definition id_missing : pystr :=
  [73; 68; 69; 78; 84; 73; 70; 73; 69; 82; 32; 1608; 1575; 1585; 1583; 32;
   1606; 1588; 1583; 1607].
Definition already_running : pystr :=
  [1583; 1585; 32; 1581; 1575; 1604; 32; 1575; 1580; 1585; 1575; 1587; 1578].
Definition running : pystr :=
  [1583; 1585; 32; 1581; 1575; 1604; 32; 1575; 1580; 1585; 1575; 46; 46; 46].
Definition stopping : pystr :=
  [1583; 1585; 32; 1581; 1575; 1604; 32; 1578; 1608; 1602; 1601; 46; 46; 46;
   32; 40; 1589; 1576; 1585; 32; 1705; 1606; 41; 32].
Definition stopped : pystr := [1605; 1578; 1608; 1602; 1601; 32; 1588; 1583].
Definition ready : pystr := [1570; 1605; 1575; 1583; 1607].
Definition five_minutes : pystr := [48; 53; 58; 48; 48].

End Text.

(** The f-strings of lines 64, 68, 75 and the literal of line 87. *)
Definition render_status (m : StatusMsg) : pystr :=
  match m with
  | SendOk code shown =>
      Text.ok_open ++ PyStr.of_int code ++ Text.close_dash ++ shown
  | Non2xx code shown =>
      Text.non2xx_open ++ PyStr.of_int code ++ Text.dash ++ shown
  | SendError attempt err =>
      Text.error_open ++ PyStr.of_int attempt ++ Text.close_dash ++ err
  | AllFailed => Text.all_failed
  end.

Inductive Level := DEBUG | INFO | WARNING | ERROR.

(** The records written to the [saino] logger by [run]. *)
Inductive LogRecord :=
| WorkerStarted (identifier : pystr)               (* line 43 *)
| AttemptSending (attempt : Z) (payload : Payload) (* line 52 *)
| LogSuccess (msg : pystr)                         (* line 66 *)
| LogNon2xx (msg : pystr)                          (* line 70 *)
| RequestFailed (attempt : Z)                      (* line 74 *)
| AllRetriesFailed (identifier : pystr)            (* line 88 *)
| WorkerStopping.                                  (* line 99 *)

Inductive Event :=
| IsSet (b : bool)                       (* [_stop_event.is_set()] answered [b] *)
| Wait1                                  (* [_stop_event.wait(1)] *)
| Post (payload : Payload) (r : PostResult)  (* [requests.post], its outcome *)
| Log (lvl : Level) (r : LogRecord)
| StatusSignal (m : StatusMsg)           (* [status_signal.emit] *)
| CountdownSignal (remaining : Z)        (* [countdown_signal.emit] *)
| FinishedSignal.                        (* [finished_signal.emit] *)

(** The environment of one run.  Nothing in the program clears the stop
    event, so the answers of [is_set()] are [False] up to some call and [True]
    from then on: [stop_from = Some s] says that the call number [s] (from 0)
    is the first to see the event set, [None] that it is never set.
    [responses k] is the outcome of the POST number [k] of the run. *)
Record Env := mkEnv {
  stop_from : option nat;
  responses : nat -> PostResult
}.

(** How many [is_set()] calls and POSTs the run has made so far. *)
Record World := mkWorld { checks : nat; posts : nat }.

Definition world0 : World := mkWorld 0 0.

(** ** Programs: state passing over [World], with the events performed *)

Definition Prog (A : Type) : Type := World -> A * World * list Event.

Definition ret {A} (a : A) : Prog A := fun w => (a, w, []).

Definition bind {A B} (m : Prog A) (k : A -> Prog B) : Prog B :=
  fun w =>
    let '(a, w1, t1) := m w in
    let '(b, w2, t2) := k a w1 in
    (b, w2, t1 ++ t2).

Declare Scope prog_scope.
Delimit Scope prog_scope with prog.
Notation "x <- m ;; k" := (bind m (fun x => k))
  (at level 61, m at next level, right associativity) : prog_scope.
Notation "m ;; k" := (bind m (fun _ => k))
  (at level 61, right associativity) : prog_scope.

Definition value {A} (r : A * World * list Event) : A := fst (fst r).
Definition after {A} (r : A * World * list Event) : World := snd (fst r).
Definition trace {A} (r : A * World * list Event) : list Event := snd r.

Definition tell (e : Event) : Prog unit := fun w => (tt, w, [e]).

Definition stopped (env : Env) (c : nat) : bool :=
  match stop_from env with
  | Some s => (s <=? c)%nat
  | None => false
  end.

Section Worker.

Variable env : Env.
(** [self.identifier] *)
Variable identifier : pystr.

Local Open Scope prog_scope.

(** [self._stop_event.is_set()] *)
Definition is_set : Prog bool := fun w =>
  let b := stopped env (checks w) in
  (b, mkWorld (S (checks w)) (posts w), [IsSet b]).

(** [self._stop_event.wait(1)]; its result is not used. *)
Definition wait1 : Prog unit := tell Wait1.

(** [requests.post(URL, json=payload, headers=HEADERS, timeout=...)] *)
Definition post (payload : Payload) : Prog PostResult := fun w =>
  let r := responses env (posts w) in
  (r, mkWorld (checks w) (S (posts w)), [Post payload r]).

(** Lines 81-84, [todo] being [delay - waited]:
    [while waited < delay and not is_set(): wait(1); waited += 1].
    The event is not consulted once [waited] has reached [delay]. *)
Fixpoint backoff_wait (todo : nat) : Prog unit :=
  match todo with
  | O => ret tt
  | S todo' =>
      set <- is_set ;;
      if set then ret tt
      else wait1 ;; backoff_wait todo'
  end.

(** Lines 54-72: the body of the [try] once [requests.post] has returned. *)
Definition report_response (resp : Response) : Prog unit :=
  let code := status_code resp in
  let shown := display_body (body_str resp) in
  if is_2xx code then
    let msg := SendOk code shown in
    tell (StatusSignal msg) ;;
    tell (Log INFO (LogSuccess (render_status msg)))
  else
    let msg := Non2xx code shown in
    tell (StatusSignal msg) ;;
    tell (Log WARNING (LogNon2xx (render_status msg))).

(** Lines 47-84: the [for attempt in ...] loop over the attempts left; the
    value is the flag [success] at the end of the loop. *)
Fixpoint attempts (todo : list Z) : Prog bool :=
  match todo with
  | [] => ret false
  | attempt :: rest =>
      set <- is_set ;;
      if set then ret false
      else
        let payload := mkPayload identifier vps in
        tell (Log DEBUG (AttemptSending attempt payload)) ;;
        r <- post payload ;;
        match r with
        | Returned resp =>
            report_response resp ;;
            ret true
        | Raised e =>
            tell (Log ERROR (RequestFailed attempt)) ;;
            tell (StatusSignal (SendError attempt (PyStr.slice_to 200 e))) ;;
            backoff_wait (Z.to_nat (retry_delay attempt)) ;;
            attempts rest
        end
  end.

(** Lines 46-88: the delivery phase of one cycle. *)
Definition delivery : Prog bool :=
  success <- attempts (range 1 (MAX_RETRIES + 1)) ;;
  (if negb success then
     tell (StatusSignal AllFailed) ;;
     tell (Log WARNING (AllRetriesFailed identifier))
   else ret tt) ;;
  ret success.

(** Lines 92-97: [while remaining > 0 and not is_set(): ...]. *)
Fixpoint countdown (remaining : nat) : Prog unit :=
  match remaining with
  | O => ret tt
  | S remaining' =>
      set <- is_set ;;
      if set then ret tt
      else
        tell (CountdownSignal (Z.of_nat remaining)) ;;
        wait1 ;;
        countdown remaining'
  end.

(** Lines 45-97: one pass through the body of the outer [while]. *)
Definition cycle : Prog unit :=
  delivery ;;
  countdown (Z.to_nat INTERVAL).

(** Line 44: [while not is_set(): cycle].  The loop has no bound of its own;
    [fuel] bounds the number of passes and [None] means that it ran out. *)
Fixpoint main_loop (fuel : nat) (w : World) : option (World * list Event) :=
  match fuel with
  | O => None
  | S fuel' =>
      let '(set, w1, t1) := is_set w in
      if set then Some (w1, t1)
      else
        let '(_, w2, t2) := cycle w1 in
        match main_loop fuel' w2 with
        | Some (w3, t3) => Some (w3, t1 ++ t2 ++ t3)
        | None => None
        end
  end.

(** [PingWorker.run] *)
Definition run (fuel : nat) : option (list Event) :=
  match main_loop fuel world0 with
  | Some (_, t) =>
      Some ([Log INFO (WorkerStarted identifier)] ++ t
            ++ [Log INFO WorkerStopping; FinishedSignal])
  | None => None
  end.

End Worker.

(** ** Reading traces *)

Definition statuses (t : list Event) : list StatusMsg :=
  flat_map (fun e => match e with StatusSignal m => [m] | _ => [] end) t.

Definition ticks (t : list Event) : list Z :=
  flat_map (fun e => match e with CountdownSignal r => [r] | _ => [] end) t.

Definition requests (t : list Event) : list PostResult :=
  flat_map (fun e => match e with Post _ r => [r] | _ => [] end) t.

Definition finishes (t : list Event) : nat :=
  length (filter (fun e => match e with FinishedSignal => true | _ => false end) t).

Definition is_raised (r : PostResult) : bool :=
  match r with Raised _ => true | Returned _ => false end.

Definition is_ok_status (m : StatusMsg) : bool :=
  match m with SendOk _ _ => true | _ => false end.

Definition is_non2xx_status (m : StatusMsg) : bool :=
  match m with Non2xx _ _ => true | _ => false end.

Definition is_error_status (m : StatusMsg) : bool :=
  match m with SendError _ _ => true | _ => false end.

Definition timeout_text : pystr := [116; 105; 109; 101; 111; 117; 116]%N.

Definition always_timeout : Env := mkEnv None (fun _ => Raised timeout_text).

(** The suffix of a trace that follows the first [is_set()] answering
    [True]; empty when the event was never seen set. *)
Fixpoint after_stop (t : list Event) : list Event :=
  match t with
  | [] => []
  | IsSet true :: rest => rest
  | _ :: rest => after_stop rest
  end.

(** What the worker may still do once it has seen the stop event: look at it
    again, log, report the abandoned delivery, and finish. *)
Definition winding_down (e : Event) : bool :=
  match e with
  | IsSet true | Log _ _ | StatusSignal AllFailed | FinishedSignal => true
  | _ => false
  end.

(** Has some [is_set()] call already answered [True]? *)
Definition seen (env : Env) (w : World) : bool :=
  match stop_from env with
  | Some s => (s <? checks w)%nat
  | None => false
  end.

(** The status sent for the outcome of one attempt (lines 64, 68, 75). *)
Definition status_of (attempt : Z) (r : PostResult) : StatusMsg :=
  match r with
  | Returned resp =>
      if is_2xx (status_code resp)
      then SendOk (status_code resp) (display_body (body_str resp))
      else Non2xx (status_code resp) (display_body (body_str resp))
  | Raised e => SendError attempt (PyStr.slice_to 200 e)
  end.

(** The one-second waits that follow each request of a delivery phase, up to
    the next request or the end of the phase. *)
Fixpoint waits_until_post (t : list Event) : nat :=
  match t with
  | [] => 0
  | Post _ _ :: _ => 0
  | Wait1 :: rest => S (waits_until_post rest)
  | _ :: rest => waits_until_post rest
  end.

Fixpoint backoff_waits (t : list Event) : list nat :=
  match t with
  | [] => []
  | Post _ _ :: rest => waits_until_post rest :: backoff_waits rest
  | _ :: rest => backoff_waits rest
  end.

Definition is_stop (e : Event) : bool :=
  match e with IsSet true => true | _ => false end.

(** Did some [is_set()] call of this trace answer [True]? *)
Definition saw_stop (t : list Event) : bool := existsb is_stop t.

(** [n] one-second waits, the stop event found clear before each. *)
Fixpoint clear_waits (n : nat) : list Event :=
  match n with
  | O => []
  | S n' => IsSet false :: Wait1 :: clear_waits n'
  end.

(** A countdown from [n] that runs to its end. *)
Fixpoint full_countdown (n : nat) : list Event :=
  match n with
  | O => []
  | S n' =>
      IsSet false :: CountdownSignal (Z.of_nat n) :: Wait1 :: full_countdown n'
  end.

(** [n, n-1, ..., 1] *)
Definition descending (n : nat) : list Z := map Z.of_nat (rev (seq 1 n)).

(** The attempts [todo], each one failing and followed by its whole backoff
    delay; [k] is the number of the first POST. *)
Fixpoint failed_attempts (env : Env) (identifier : pystr)
         (todo : list Z) (k : nat) : list Event :=
  match todo with
  | [] => []
  | attempt :: rest =>
      [IsSet false;
       Log DEBUG (AttemptSending attempt (mkPayload identifier vps));
       Post (mkPayload identifier vps) (responses env k);
       Log ERROR (RequestFailed attempt);
       StatusSignal (status_of attempt (responses env k))]
      ++ clear_waits (Z.to_nat (retry_delay attempt))
      ++ failed_attempts env identifier rest (S k)
  end.

(** The error reports of the failed attempts [fails], each an attempt number
    with the text of its exception, and the outcomes of their requests. *)
Definition error_reports (fails : list (Z * pystr)) : list StatusMsg :=
  map (fun f => SendError (fst f) (PyStr.slice_to 200 (snd f))) fails.

Definition raised_requests (fails : list (Z * pystr)) : list PostResult :=
  map (fun f => Raised (snd f)) fails.

(** Sample environments: a JSON body [{"ok": true}] answered with 200, a
    plain-text 503, and an endpoint whose first request times out. *)
Definition worker_1 : pystr := [119; 111; 114; 107; 101; 114; 45; 49]%N.

Definition response_200 : Response :=
  mkResponse 200
    (Some [123; 39; 111; 107; 39; 58; 32; 84; 114; 117; 101; 125]%N)
    [123; 34; 111; 107; 34; 58; 116; 114; 117; 101; 125]%N.

Definition response_503 : Response :=
  mkResponse 503 None
    [32; 83; 101; 114; 118; 105; 99; 101; 32; 85; 110; 97; 118; 97; 105; 108;
     97; 98; 108; 101; 10]%N.

Definition timeout_then (resp : Response) (stop : option nat) : Env :=
  mkEnv stop (fun k => match k with
                       | O => Raised timeout_text
                       | S _ => Returned resp
                       end).

(** [loop_reaches env identifier w t]: the run has come to the test of the
    outer [while] (line 44) in world [w], having performed [t] in the loop so
    far. *)
Inductive loop_reaches (env : Env) (identifier : pystr)
  : World -> list Event -> Prop :=
| reaches_start : loop_reaches env identifier world0 []
| reaches_next w t :
    loop_reaches env identifier w t ->
    stopped env (checks w) = false ->
    loop_reaches env identifier
      (after (cycle env identifier (after (is_set env w))))
      (t ++ IsSet false :: trace (cycle env identifier (after (is_set env w)))).

(** The Qt signals of a trace, in order. *)
Definition emitted (t : list Event) : list Event :=
  filter (fun e => match e with
                   | StatusSignal _ | CountdownSignal _ | FinishedSignal => true
                   | _ => false
                   end) t.

(** A program keeps account of the stop event: the number of [is_set()]
    calls never goes down, and a call that answered [True] is remembered. *)
Definition accounts (env : Env) {A} (p : Prog A) : Prop :=
  forall w,
    (checks w <= checks (after (p w)))%nat
    /\ (saw_stop (trace (p w)) = true -> seen env (after (p w)) = true).

(** ** The window: [MainWindow] and the workers it creates *)

Module MainWindow.

(** Where a [PingWorker] thread stands: [worker.start()] makes it
    [Running]; when [run] returns it has emitted [finished_signal]
    ([Exited]); the queued signal then reaches [on_finished], after which
    the window no longer holds it ([Released]). *)
Inductive Lifecycle := Running | Exited | Released.

(** A [PingWorker] object: [self.identifier], whether [self._stop_event] is
    set, and its thread. *)
Record PingWorker := mkWorker {
  identifier : pystr;
  stop_event : bool;
  thread : Lifecycle
}.

(** The window's widgets as far as the handlers touch them, [self.worker]
    as a reference into the store of [PingWorker] objects, and that store
    (an object's address is its position; objects are never removed). *)
Record State := mkState {
  identifier_edit_text : pystr;
  identifier_edit_enabled : bool;
  timer_label : pystr;
  status_label : pystr;
  start_btn_enabled : bool;
  stop_btn_enabled : bool;
  worker : option nat;
  objects : list PingWorker
}.

(** [MainWindow.__init__] *)
Definition init : State :=
  mkState [] true Text.five_minutes Text.ready true false None [].

(** [self.status_label.setText(msg)] *)
Definition set_status (msg : pystr) (s : State) : State :=
  mkState (identifier_edit_text s) (identifier_edit_enabled s)
          (timer_label s) msg
          (start_btn_enabled s) (stop_btn_enabled s)
          (worker s) (objects s).

(** [self.identifier_edit] receives text typed by the user. *)
Definition set_text (txt : pystr) (s : State) : State :=
  mkState txt (identifier_edit_enabled s)
          (timer_label s) (status_label s)
          (start_btn_enabled s) (stop_btn_enabled s)
          (worker s) (objects s).

Fixpoint update (a : nat) (f : PingWorker -> PingWorker)
         (l : list PingWorker) : list PingWorker :=
  match l, a with
  | [], _ => []
  | o :: rest, O => f o :: rest
  | o :: rest, S a' => o :: update a' f rest
  end.

(** [PingWorker.stop]: [self._stop_event.set()] *)
Definition stop (o : PingWorker) : PingWorker :=
  mkWorker (identifier o) true (thread o).

Definition set_thread (l : Lifecycle) (o : PingWorker) : PingWorker :=
  mkWorker (identifier o) (stop_event o) l.

(** Lines 162-181 *)
Definition on_start (s : State) : State :=
  let ident := PyStr.strip (identifier_edit_text s) in
  match ident with
  | [] => set_status Text.id_missing s
  | _ :: _ =>
      match worker s with
      | Some _ => set_status Text.already_running s
      | None =>
          (* PingWorker(identifier=identifier), then worker.start() *)
          mkState (identifier_edit_text s) false
                  (timer_label s) Text.running
                  false true
                  (Some (length (objects s)))
                  (objects s ++ [mkWorker ident false Running])
      end
  end.

(** Lines 183-188 *)
Definition on_stop (s : State) : State :=
  match worker s with
  | Some a =>
      mkState (identifier_edit_text s) (identifier_edit_enabled s)
              (timer_label s) Text.stopping
              (start_btn_enabled s) false
              (worker s) (update a stop (objects s))
  | None => s
  end.

(** Lines 190-193 *)
Definition on_status (msg : pystr) (s : State) : State := set_status msg s.

(** Lines 195-199: [f"{mins:02d}:{secs:02d}"] with [//] and [%] by 60. *)
Definition on_countdown (remaining_seconds : Z) (s : State) : State :=
  let mins := (remaining_seconds / 60)%Z in
  let secs := (remaining_seconds mod 60)%Z in
  mkState (identifier_edit_text s) (identifier_edit_enabled s)
          (PyStr.format_02d mins ++ [58%N] ++ PyStr.format_02d secs)
          (status_label s)
          (start_btn_enabled s) (stop_btn_enabled s)
          (worker s) (objects s).

(** Lines 201-209 *)
Definition on_finished (s : State) : State :=
  mkState (identifier_edit_text s) true
          Text.five_minutes Text.stopped
          true false
          None (objects s).

(** Lines 211-217: the worker is told to stop; the wait of at most three
    seconds that follows changes nothing the window keeps. *)
Definition closeEvent (s : State) : State :=
  match worker s with
  | Some a =>
      mkState (identifier_edit_text s) (identifier_edit_enabled s)
              (timer_label s) (status_label s)
              (start_btn_enabled s) (stop_btn_enabled s)
              (worker s) (update a stop (objects s))
  | None => s
  end.

(** What can happen to a window: the user types, clicks Start or Stop, or
    closes it; a signal of the worker reaches its slot; a running worker
    whose stop event is set leaves [run]; the [finished_signal] of an exited
    worker is delivered, which runs [on_finished]. *)
Inductive step : State -> State -> Prop :=
| step_text s txt : step s (set_text txt s)
| step_start s : step s (on_start s)
| step_stop s : step s (on_stop s)
| step_close s : step s (closeEvent s)
| step_status s m : step s (on_status (render_status m) s)
| step_countdown s r : step s (on_countdown r s)
| step_exit s a o :
    nth_error (objects s) a = Some o ->
    thread o = Running -> stop_event o = true ->
    step s (mkState (identifier_edit_text s) (identifier_edit_enabled s)
                    (timer_label s) (status_label s)
                    (start_btn_enabled s) (stop_btn_enabled s)
                    (worker s) (update a (set_thread Exited) (objects s)))
| step_finished s a o :
    nth_error (objects s) a = Some o ->
    thread o = Exited ->
    step s (on_finished
              (mkState (identifier_edit_text s) (identifier_edit_enabled s)
                       (timer_label s) (status_label s)
                       (start_btn_enabled s) (stop_btn_enabled s)
                       (worker s)
                       (update a (set_thread Released) (objects s)))).

Inductive reachable : State -> Prop :=
| reach_init : reachable init
| reach_step s s' : reachable s -> step s s' -> reachable s'.

(** An engine exists as long as the window has not released it. *)
Definition exists_engine (o : PingWorker) : Prop := thread o <> Released.

(** At most one engine exists: any two existing engines are the same
    object. *)
Definition single_instance (s : State) : Prop :=
  forall a b oa ob,
    nth_error (objects s) a = Some oa -> exists_engine oa ->
    nth_error (objects s) b = Some ob -> exists_engine ob ->
    a = b.

(** The window's reference and the existing engines agree. *)
Definition holds_its_engines (s : State) : Prop :=
  (forall a o, nth_error (objects s) a = Some o -> exists_engine o ->
               worker s = Some a)
  /\ (forall a, worker s = Some a ->
                exists o, nth_error (objects s) a = Some o /\ exists_engine o).

End MainWindow.

(** ** Further readings of traces, and the signals reaching the window *)

(** The one-second waits of a trace. *)
Definition waits (t : list Event) : nat :=
  length (filter (fun e => match e with Wait1 => true | _ => false end) t).

(** What a status carries stays within the cuts of lines 62 and 75. *)
Definition within_cuts (m : StatusMsg) : Prop :=
  match m with
  | SendOk _ shown | Non2xx _ shown => (PyStr.len shown <= 303)%nat
  | SendError _ err => (PyStr.len err <= 200)%nat
  | AllFailed => True
  end.

(** The first [k] steps of a countdown from [n], and the test that cuts it
    short when [k < n]. *)
Definition countdown_prefix (n k : nat) : list Event :=
  flat_map (fun r => [IsSet false; CountdownSignal r; Wait1])
           (firstn k (descending n))
  ++ (if (k <? n)%nat then [IsSet true] else []).

(** Lines 173-175: [status_signal], [countdown_signal] and [finished_signal]
    connected to [on_status], [on_countdown] and [on_finished]. *)
Definition deliver (e : Event) (s : MainWindow.State) : MainWindow.State :=
  match e with
  | StatusSignal m => MainWindow.on_status (render_status m) s
  | CountdownSignal r => MainWindow.on_countdown r s
  | FinishedSignal => MainWindow.on_finished s
  | _ => s
  end.

Definition deliver_all (t : list Event) (s : MainWindow.State)
  : MainWindow.State :=
  fold_left (fun s' e => deliver e s') t s.

(** Reading a timer text [MM:SS] back as a number of seconds. *)
Definition digit (c : codepoint) : option Z :=
  if ((48 <=? c) && (c <=? 57))%N then Some (Z.of_N c - 48)%Z else None.

Definition parse_timer (label : pystr) : option Z :=
  match label with
  | [m1; m0; colon; s1; s0] =>
      match digit m1, digit m0, digit s1, digit s0 with
      | Some a, Some b, Some c, Some d =>
          if (colon =? 58)%N
          then Some ((10 * a + b) * 60 + (10 * c + d))%Z
          else None
      | _, _, _, _ => None
      end
  | _ => None
  end.

(** A thread only moves forward: running, exited, released. *)
Definition advances (l l' : MainWindow.Lifecycle) : Prop :=
  match l, l' with
  | MainWindow.Running, _ => True
  | MainWindow.Exited, MainWindow.Running => False
  | MainWindow.Exited, _ => True
  | MainWindow.Released, MainWindow.Released => True
  | MainWindow.Released, _ => False
  end.

(** Any number of steps of the window. *)
Inductive steps : MainWindow.State -> MainWindow.State -> Prop :=
| steps_none s : steps s s
| steps_more s s' s'' : steps s s' -> MainWindow.step s' s'' -> steps s s''.

(** ** Laws of programs *)

Section ProgLaws.

Context {A B : Type}.
Variables (m : Prog A) (k : A -> Prog B) (w : World).

Lemma bind_value : value (bind m k w) = value (k (value (m w)) (after (m w))).
Proof.
  unfold bind, value, after.
  destruct (m w) as [[a w1] t1]; simpl.
  destruct (k a w1) as [[b w2] t2]; reflexivity.
Qed.

Lemma bind_after : after (bind m k w) = after (k (value (m w)) (after (m w))).
Proof.
  unfold bind, value, after.
  destruct (m w) as [[a w1] t1]; simpl.
  destruct (k a w1) as [[b w2] t2]; reflexivity.
Qed.

Lemma bind_trace :
  trace (bind m k w) = trace (m w) ++ trace (k (value (m w)) (after (m w))).
Proof.
  unfold bind, value, after, trace.
  destruct (m w) as [[a w1] t1]; simpl.
  destruct (k a w1) as [[b w2] t2]; reflexivity.
Qed.

End ProgLaws.

Lemma ret_value {A} (a : A) w : value (ret a w) = a.
Proof. reflexivity. Qed.
Lemma ret_after {A} (a : A) w : after (ret a w) = w.
Proof. reflexivity. Qed.
Lemma ret_trace {A} (a : A) w : trace (ret a w) = [].
Proof. reflexivity. Qed.
Lemma tell_after e w : after (tell e w) = w.
Proof. reflexivity. Qed.
Lemma tell_trace e w : trace (tell e w) = [e].
Proof. reflexivity. Qed.
Lemma is_set_value env w : value (is_set env w) = stopped env (checks w).
Proof. reflexivity. Qed.
Lemma is_set_after env w :
  after (is_set env w) = mkWorld (S (checks w)) (posts w).
Proof. reflexivity. Qed.
Lemma is_set_trace env w : trace (is_set env w) = [IsSet (stopped env (checks w))].
Proof. reflexivity. Qed.
Lemma wait1_after w : after (wait1 w) = w.
Proof. reflexivity. Qed.
Lemma wait1_trace w : trace (wait1 w) = [Wait1].
Proof. reflexivity. Qed.
Lemma post_value env p w : value (post env p w) = responses env (posts w).
Proof. reflexivity. Qed.
Lemma post_after env p w :
  after (post env p w) = mkWorld (checks w) (S (posts w)).
Proof. reflexivity. Qed.
Lemma post_trace env p w :
  trace (post env p w) = [Post p (responses env (posts w))].
Proof. reflexivity. Qed.

Create Rewrite HintDb prog.
#[export] Hint Rewrite @bind_value @bind_after @bind_trace
  @ret_value @ret_after @ret_trace tell_after tell_trace
  is_set_value is_set_after is_set_trace wait1_after wait1_trace
  post_value post_after post_trace : prog.

Ltac prog :=
  repeat (progress (autorewrite with prog; cbn [app checks posts])).

(** Projections of a trace distribute over concatenation. *)
Lemma statuses_app t1 t2 : statuses (t1 ++ t2) = statuses t1 ++ statuses t2.
Proof. apply flat_map_app. Qed.
Lemma ticks_app t1 t2 : ticks (t1 ++ t2) = ticks t1 ++ ticks t2.
Proof. apply flat_map_app. Qed.
Lemma requests_app t1 t2 : requests (t1 ++ t2) = requests t1 ++ requests t2.
Proof. apply flat_map_app. Qed.
Lemma finishes_app t1 t2 : finishes (t1 ++ t2) = finishes t1 + finishes t2.
Proof. unfold finishes. rewrite filter_app, length_app. reflexivity. Qed.

Lemma after_stop_app t1 t2 :
  after_stop (t1 ++ t2) =
  if saw_stop t1 then after_stop t1 ++ t2 else after_stop t2.
Proof.
  induction t1 as [|e t1 IH]; simpl; [reflexivity|].
  destruct e as [[|]| | | | | |]; simpl; auto.
Qed.

(** ** Small checks of the string helpers *)

Example of_int_200 : PyStr.of_int 200 = [50; 48; 48]%N.
Proof. reflexivity. Qed.

Example of_int_0 : PyStr.of_int 0 = [48]%N.
Proof. reflexivity. Qed.

Example format_02d_5 : PyStr.format_02d 5 = [48; 53]%N.
Proof. reflexivity. Qed.

Example range_attempts : range 1 (MAX_RETRIES + 1) = [1; 2; 3]%Z.
Proof. reflexivity. Qed.

(** ** The backoff delay and the displayed body *)

Lemma retry_delay_min (n : Z) :
  retry_delay n = Z.min 30 (INITIAL_RETRY_DELAY * 2 ^ (n - 1)).
Proof.
  unfold retry_delay. cbv zeta.
  destruct (Z.gtb_spec (INITIAL_RETRY_DELAY * 2 ^ (n - 1)) 30); lia.
Qed.

(** C3: for every attempt number n in [1,3] the backoff delay computed after
    a failed attempt n is min(30, 2 * 2^(n-1)) seconds, that is 2, 4 and 8
    seconds for n = 1, 2, 3; the cap of 30 is never the binding value there. *)
Theorem retry_delay_first_three (n : Z) :
  (1 <= n <= MAX_RETRIES)%Z ->
  retry_delay n = Z.min 30 (2 * 2 ^ (n - 1))
  /\ retry_delay n = (2 * 2 ^ (n - 1))%Z
  /\ (retry_delay n < 30)%Z
  /\ retry_delay 1 = 2%Z /\ retry_delay 2 = 4%Z /\ retry_delay 3 = 8%Z.
Proof.
  intros Hn. unfold MAX_RETRIES in Hn.
  assert (Hcases : n = 1%Z \/ n = 2%Z \/ n = 3%Z) by lia.
  split; [apply retry_delay_min|].
  destruct Hcases as [-> | [-> | ->]]; repeat split; reflexivity.
Qed.

Lemma retry_delay_first_three_witness :
  retry_delay 2 = Z.min 30 (2 * 2 ^ (2 - 1))
  /\ retry_delay 2 = (2 * 2 ^ (2 - 1))%Z
  /\ (retry_delay 2 < 30)%Z
  /\ retry_delay 1 = 2%Z /\ retry_delay 2 = 4%Z /\ retry_delay 3 = 8%Z.
Proof. apply (retry_delay_first_three 2). unfold MAX_RETRIES. lia. Defined.

(** C9: the displayed body is the response body itself when it has at most
    300 characters, and its first 300 characters followed by "..." when it
    has more. *)
Theorem display_body_truncates (body : pystr) :
  ((PyStr.len body <= 300)%nat -> display_body body = body)
  /\ ((300 < PyStr.len body)%nat ->
      display_body body = firstn 300 body ++ [46; 46; 46]%N
      /\ PyStr.len (display_body body) = 303%nat).
Proof.
  unfold display_body, PyStr.slice_to, PyStr.ellipsis, PyStr.len.
  split; intros H.
  - destruct (Nat.ltb_spec 300 (length body)); [lia | reflexivity].
  - destruct (Nat.ltb_spec 300 (length body)); [| lia].
    split; [reflexivity|].
    rewrite length_app, length_firstn. simpl length. lia.
Qed.

Lemma display_body_truncates_witness :
  display_body (repeat 97%N 300) = repeat 97%N 300
  /\ display_body (repeat 97%N 300 ++ [98%N])
     = repeat 97%N 300 ++ [46; 46; 46]%N.
Proof.
  split.
  - apply (proj1 (display_body_truncates (repeat 97%N 300))).
    unfold PyStr.len. rewrite repeat_length. lia.
  - change (repeat 97%N 300 ++ [46; 46; 46]%N)
      with (firstn 300 (repeat 97%N 300 ++ [98%N]) ++ [46; 46; 46]%N).
    apply (proj2 (display_body_truncates (repeat 97%N 300 ++ [98%N]))).
    unfold PyStr.len. rewrite length_app, repeat_length. simpl. lia.
Defined.

(** ** The stop event as the worker sees it *)

Lemma saw_stop_app t1 t2 : saw_stop (t1 ++ t2) = saw_stop t1 || saw_stop t2.
Proof. apply existsb_app. Qed.

Lemma seen_stopped env w : seen env w = true -> stopped env (checks w) = true.
Proof.
  unfold seen, stopped. destruct (stop_from env) as [s|]; [|discriminate].
  rewrite Nat.ltb_lt, Nat.leb_le. lia.
Qed.

Lemma seen_later env w w' :
  seen env w = true -> (checks w <= checks w')%nat -> seen env w' = true.
Proof.
  unfold seen. destruct (stop_from env) as [s|]; [|discriminate].
  rewrite !Nat.ltb_lt. lia.
Qed.

Lemma stopped_seen env w w' :
  stopped env (checks w) = true -> (checks w < checks w')%nat ->
  seen env w' = true.
Proof.
  unfold seen, stopped. destruct (stop_from env) as [s|]; [|discriminate].
  rewrite Nat.ltb_lt, Nat.leb_le. lia.
Qed.

Section Observation.

Variable env : Env.

Lemma accounts_ret {A} (a : A) : accounts env (ret a).
Proof. intros w. split; [apply Nat.le_refl | discriminate]. Qed.

Lemma accounts_tell e : is_stop e = false -> accounts env (tell e).
Proof.
  intros He w. split; [apply Nat.le_refl|].
  rewrite tell_trace. unfold saw_stop. simpl. rewrite He. discriminate.
Qed.

Lemma accounts_is_set : accounts env (is_set env).
Proof.
  intros w. rewrite is_set_after, is_set_trace. simpl checks.
  split; [lia|].
  unfold saw_stop. simpl. rewrite orb_false_r.
  destruct (stopped env (checks w)) eqn:Hs; [|discriminate].
  intros _. apply (stopped_seen env w); [exact Hs | simpl; lia].
Qed.

Lemma accounts_post p : accounts env (post env p).
Proof.
  intros w. rewrite post_after, post_trace. simpl checks.
  split; [lia | discriminate].
Qed.

Lemma accounts_bind {A B} (m : Prog A) (k : A -> Prog B) :
  accounts env m -> (forall a, accounts env (k a)) -> accounts env (bind m k).
Proof.
  intros Hm Hk w. rewrite bind_after, bind_trace, saw_stop_app.
  destruct (Hm w) as [Hle1 Hs1].
  destruct (Hk (value (m w)) (after (m w))) as [Hle2 Hs2].
  split; [lia|].
  intros H. apply orb_true_iff in H. destruct H as [H|H]; [|auto].
  apply seen_later with (w := after (m w)); auto.
Qed.

End Observation.

Section WorkerFacts.

Variable env : Env.
Variable identifier : pystr.

Lemma accounts_backoff_wait n : accounts env (backoff_wait env n).
Proof.
  induction n as [|n IH]; simpl; [apply accounts_ret|].
  apply accounts_bind; [apply accounts_is_set|].
  intros [|]; [apply accounts_ret|].
  apply accounts_bind; [apply accounts_tell; reflexivity | intros _; exact IH].
Qed.

Lemma accounts_report_response resp : accounts env (report_response resp).
Proof.
  unfold report_response.
  destruct (is_2xx (status_code resp));
    (apply accounts_bind; [|intros _]); apply accounts_tell; reflexivity.
Qed.

Lemma accounts_attempts todo : accounts env (attempts env identifier todo).
Proof.
  induction todo as [|attempt rest IH]; simpl; [apply accounts_ret|].
  apply accounts_bind; [apply accounts_is_set|].
  intros [|]; [apply accounts_ret|].
  apply accounts_bind; [apply accounts_tell; reflexivity | intros _].
  apply accounts_bind; [apply accounts_post|].
  intros [resp|e].
  - apply accounts_bind; [apply accounts_report_response|].
    intros _; apply accounts_ret.
  - repeat (apply accounts_bind;
            [apply accounts_tell; reflexivity | intros _]).
    apply accounts_bind; [apply accounts_backoff_wait | intros _; exact IH].
Qed.

Lemma accounts_delivery : accounts env (delivery env identifier).
Proof.
  unfold delivery.
  apply accounts_bind; [apply accounts_attempts|].
  intros success. apply accounts_bind; [|intros _; apply accounts_ret].
  destruct (negb success); [|apply accounts_ret].
  apply accounts_bind; [|intros _]; apply accounts_tell; reflexivity.
Qed.

Lemma accounts_countdown n : accounts env (countdown env n).
Proof.
  induction n as [|n IH]; [apply accounts_ret|].
  cbn [countdown].
  apply accounts_bind; [apply accounts_is_set|].
  intros [|]; [apply accounts_ret|].
  apply accounts_bind; [apply accounts_tell; reflexivity | intros _].
  apply accounts_bind; [apply accounts_tell; reflexivity | intros _; exact IH].
Qed.

Lemma accounts_cycle : accounts env (cycle env identifier).
Proof.
  unfold cycle.
  apply accounts_bind; [apply accounts_delivery|].
  intros _; apply accounts_countdown.
Qed.

End WorkerFacts.

(** ** Phases that start with the stop event already set *)

Section Stopped.

Variable env : Env.
Variable identifier : pystr.

Lemma backoff_wait_stopped n w :
  stopped env (checks w) = true ->
  trace (backoff_wait env (S n) w) = [IsSet true].
Proof.
  intros Hs. cbn [backoff_wait]. prog. rewrite Hs. reflexivity.
Qed.

Lemma attempts_stopped attempt rest w :
  stopped env (checks w) = true ->
  trace (attempts env identifier (attempt :: rest) w) = [IsSet true]
  /\ value (attempts env identifier (attempt :: rest) w) = false.
Proof.
  intros Hs. cbn [attempts]. prog. rewrite Hs. split; reflexivity.
Qed.

Lemma countdown_stopped n w :
  stopped env (checks w) = true ->
  trace (countdown env (S n) w) = [IsSet true].
Proof.
  intros Hs. cbn [countdown]. prog. rewrite Hs. reflexivity.
Qed.

Lemma main_loop_stopped fuel w :
  stopped env (checks w) = true ->
  main_loop env identifier (S fuel) w
  = Some (mkWorld (S (checks w)) (posts w), [IsSet true]).
Proof.
  intros Hs. cbn [main_loop]. unfold is_set. rewrite Hs. reflexivity.
Qed.

End Stopped.

(** ** Phases that never see the stop event set *)

Section Uninterrupted.

Variable env : Env.
Variable identifier : pystr.

Lemma backoff_wait_clear n : forall w,
  saw_stop (trace (backoff_wait env n w)) = false ->
  trace (backoff_wait env n w) = clear_waits n
  /\ posts (after (backoff_wait env n w)) = posts w.
Proof.
  induction n as [|n IH]; intros w; [split; reflexivity|].
  cbn [backoff_wait clear_waits]. prog.
  destruct (stopped env (checks w)) eqn:Hs; prog; [discriminate|].
  intros H. destruct (IH _ H) as [Ht Hp].
  rewrite Ht, Hp. split; reflexivity.
Qed.

Lemma countdown_clear n : forall w,
  saw_stop (trace (countdown env n w)) = false ->
  trace (countdown env n w) = full_countdown n.
Proof.
  induction n as [|n IH]; intros w; [reflexivity|].
  cbn [countdown full_countdown]. prog.
  destruct (stopped env (checks w)) eqn:Hs; prog; [discriminate|].
  intros H. rewrite (IH _ H). reflexivity.
Qed.

Lemma ticks_full_countdown n : ticks (full_countdown n) = descending n.
Proof.
  unfold descending.
  induction n as [|n IH]; [reflexivity|].
  cbn [full_countdown]. change (ticks (IsSet false :: ?t)) with (ticks t).
  rewrite seq_S, rev_app_distr. cbn [rev app map Nat.add].
  cbn [ticks flat_map app]. fold (ticks (full_countdown n)).
  rewrite IH. reflexivity.
Qed.

Lemma nth_descending n i :
  (i < n)%nat -> nth i (descending n) 0%Z = (Z.of_nat n - Z.of_nat i)%Z.
Proof.
  intros Hi. unfold descending.
  change 0%Z with (Z.of_nat 0). rewrite map_nth.
  rewrite rev_nth by (rewrite length_seq; exact Hi).
  rewrite length_seq, seq_nth by lia. lia.
Qed.

(** A delivery phase in which every request raises and the stop event is
    never seen set: each attempt of [todo] is made and followed by its whole
    backoff delay. *)
Lemma attempts_all_raised todo : forall w,
  saw_stop (trace (attempts env identifier todo w)) = false ->
  forallb is_raised (requests (trace (attempts env identifier todo w))) = true ->
  trace (attempts env identifier todo w)
  = failed_attempts env identifier todo (posts w)
  /\ value (attempts env identifier todo w) = false.
Proof.
  induction todo as [|attempt rest IH]; intros w; [split; reflexivity|].
  cbn [attempts failed_attempts]. prog.
  destruct (stopped env (checks w)) eqn:Hs; prog; [discriminate|].
  destruct (responses env (posts w)) as [resp|e] eqn:Hr; prog.
  - intros _ H. discriminate H.
  - set (w1 := mkWorld (S (checks w)) (S (posts w))).
    change (saw_stop (IsSet false :: Log ?a ?b :: Post ?c ?d :: Log ?e0 ?f
                        :: StatusSignal ?g :: ?t))
      with (saw_stop t).
    change (requests (IsSet false :: Log ?a ?b :: Post ?c ?d :: Log ?e0 ?f
                        :: StatusSignal ?g :: ?t))
      with (d :: requests t).
    rewrite saw_stop_app, requests_app. cbn [forallb is_raised andb].
    rewrite forallb_app.
    intros Hstop Hreq.
    apply orb_false_iff in Hstop. destruct Hstop as [Hs1 Hs2].
    apply andb_true_iff in Hreq. destruct Hreq as [_ Hr2].
    destruct (backoff_wait_clear _ _ Hs1) as [Hb Hp].
    destruct (IH _ Hs2 Hr2) as [Ht Hv].
    rewrite Hb, Ht, Hv, Hp. split; reflexivity.
Qed.

End Uninterrupted.

(** ** What each phase emits *)

Section Emissions.

Variable env : Env.
Variable identifier : pystr.

Lemma backoff_wait_silent n : forall w,
  requests (trace (backoff_wait env n w)) = []
  /\ statuses (trace (backoff_wait env n w)) = []
  /\ ticks (trace (backoff_wait env n w)) = []
  /\ finishes (trace (backoff_wait env n w)) = 0.
Proof.
  induction n as [|n IH]; intros w; [repeat split|].
  cbn [backoff_wait]. prog.
  destruct (stopped env (checks w)); prog; [repeat split|].
  apply IH.
Qed.

Lemma countdown_silent n : forall w,
  requests (trace (countdown env n w)) = []
  /\ statuses (trace (countdown env n w)) = []
  /\ finishes (trace (countdown env n w)) = 0.
Proof.
  induction n as [|n IH]; intros w; [repeat split|].
  cbn [countdown]. prog.
  destruct (stopped env (checks w)); prog; [repeat split|].
  apply IH.
Qed.

Lemma report_response_trace resp w :
  trace (report_response resp w)
  = [StatusSignal (status_of 0 (Returned resp));
     Log (if is_2xx (status_code resp) then INFO else WARNING)
         ((if is_2xx (status_code resp) then LogSuccess else LogNon2xx)
            (render_status (status_of 0 (Returned resp))))].
Proof.
  unfold report_response, status_of.
  destruct (is_2xx (status_code resp)); reflexivity.
Qed.

(** The delivery loop makes a run of failed attempts, in the order of
    [todo], and then either gives up ([success] stays [False]) or gets one
    response, reports it and stops. *)
Lemma attempts_shape todo : forall w,
  let r := attempts env identifier todo w in
  exists fails : list (Z * pystr),
    map fst fails = firstn (length fails) todo
    /\ ticks (trace r) = []
    /\ finishes (trace r) = 0
    /\ ((value r = false
         /\ requests (trace r) = raised_requests fails
         /\ statuses (trace r) = error_reports fails)
        \/ (exists resp,
              value r = true
              /\ (length fails < length todo)%nat
              /\ requests (trace r) = raised_requests fails ++ [Returned resp]
              /\ statuses (trace r)
                 = error_reports fails ++ [status_of 0 (Returned resp)])).
Proof.
  induction todo as [|attempt rest IH]; intros w; cbv zeta.
  - exists []. repeat split. left. repeat split.
  - cbn [attempts]. prog.
    destruct (stopped env (checks w)) eqn:Hs; prog.
    + exists []. repeat split. left. repeat split.
    + destruct (responses env (posts w)) as [resp|e] eqn:Hr; prog.
      * exists []. rewrite report_response_trace.
        repeat split. right. exists resp. repeat split. simpl; lia.
      * set (w1 := after (backoff_wait env _ _)).
        destruct (backoff_wait_silent (Z.to_nat (retry_delay attempt))
                    (mkWorld (S (checks w)) (S (posts w))))
          as (Hbr & Hbs & Hbt & Hbf).
        destruct (IH w1) as (fails & Hfst & Ht & Hf & Hcases).
        exists ((attempt, e) :: fails).
        change (ticks (IsSet false :: Log ?a ?b :: Post ?c ?d :: Log ?e0 ?f
                         :: StatusSignal ?g :: ?t)) with (ticks t).
        change (finishes (IsSet false :: Log ?a ?b :: Post ?c ?d
                            :: Log ?e0 ?f :: StatusSignal ?g :: ?t))
          with (finishes t).
        change (requests (IsSet false :: Log ?a ?b :: Post ?c ?d
                            :: Log ?e0 ?f :: StatusSignal ?g :: ?t))
          with (d :: requests t).
        change (statuses (IsSet false :: Log ?a ?b :: Post ?c ?d
                            :: Log ?e0 ?f :: StatusSignal ?g :: ?t))
          with (g :: statuses t).
        rewrite ticks_app, finishes_app, requests_app, statuses_app.
        rewrite Hbr, Hbs, Hbt, Hbf, Ht, Hf. cbn [app Nat.add].
        split; [simpl; rewrite Hfst; reflexivity|].
        split; [reflexivity|]. split; [reflexivity|].
        destruct Hcases as [(Hv & Hq & Hst) | (resp & Hv & Hlen & Hq & Hst)].
        -- left. rewrite Hv, Hq, Hst. repeat split.
        -- right. exists resp. rewrite Hv, Hq, Hst.
           repeat split. simpl; lia.
Qed.

Lemma delivery_value w :
  value (delivery env identifier w)
  = value (attempts env identifier (range 1 (MAX_RETRIES + 1)) w).
Proof.
  unfold delivery. prog.
  destruct (negb (value (attempts env identifier
                           (range 1 (MAX_RETRIES + 1)) w))); reflexivity.
Qed.

Lemma delivery_trace w :
  trace (delivery env identifier w)
  = trace (attempts env identifier (range 1 (MAX_RETRIES + 1)) w)
    ++ (if value (attempts env identifier (range 1 (MAX_RETRIES + 1)) w)
        then []
        else [StatusSignal AllFailed;
              Log WARNING (AllRetriesFailed identifier)]).
Proof.
  unfold delivery. prog.
  destruct (value (attempts env identifier
                     (range 1 (MAX_RETRIES + 1)) w)); prog; reflexivity.
Qed.

Lemma delivery_after w :
  after (delivery env identifier w)
  = after (attempts env identifier (range 1 (MAX_RETRIES + 1)) w).
Proof.
  unfold delivery. prog.
  destruct (value (attempts env identifier
                     (range 1 (MAX_RETRIES + 1)) w)); prog; reflexivity.
Qed.

Lemma cycle_trace w :
  trace (cycle env identifier w)
  = trace (delivery env identifier w)
    ++ trace (countdown env (Z.to_nat INTERVAL)
                (after (delivery env identifier w))).
Proof. unfold cycle. prog. reflexivity. Qed.

Lemma cycle_requests w :
  requests (trace (cycle env identifier w))
  = requests (trace (attempts env identifier (range 1 (MAX_RETRIES + 1)) w)).
Proof.
  rewrite cycle_trace, delivery_trace, !requests_app.
  destruct (countdown_silent (Z.to_nat INTERVAL)
              (after (delivery env identifier w))) as (-> & _).
  destruct (value (attempts env identifier
                     (range 1 (MAX_RETRIES + 1)) w)); simpl;
    rewrite !app_nil_r; reflexivity.
Qed.

Lemma cycle_statuses w :
  statuses (trace (cycle env identifier w))
  = statuses (trace (delivery env identifier w)).
Proof.
  rewrite cycle_trace, statuses_app.
  destruct (countdown_silent (Z.to_nat INTERVAL)
              (after (delivery env identifier w))) as (_ & -> & _).
  apply app_nil_r.
Qed.

End Emissions.

(** ** The interval countdown *)

Lemma descending_S n : descending (S n) = Z.of_nat (S n) :: descending n.
Proof.
  unfold descending. rewrite seq_S, rev_app_distr. reflexivity.
Qed.

Lemma full_countdown_steps n :
  full_countdown n
  = flat_map (fun r => [IsSet false; CountdownSignal r; Wait1]) (descending n).
Proof.
  induction n as [|n IH]; [reflexivity|].
  rewrite descending_S. cbn [full_countdown flat_map app].
  rewrite IH. reflexivity.
Qed.

(** C7: an interval phase that is not interrupted by cancellation emits the
    countdown values 300, 299, ..., 1, each one less than the one before,
    and each tick is emitted before its one-second wait. *)
Theorem countdown_ticks_300_down_to_1 (env : Env) (w : World) :
  let t := trace (countdown env (Z.to_nat INTERVAL) w) in
  saw_stop t = false ->
  t = flat_map (fun r => [IsSet false; CountdownSignal r; Wait1])
               (descending 300)
  /\ ticks t = descending 300
  /\ length (ticks t) = 300%nat
  /\ (forall i, (i < 300)%nat ->
                nth i (ticks t) 0%Z = (300 - Z.of_nat i)%Z).
Proof.
  intros t Hclear. subst t.
  change (Z.to_nat INTERVAL) with 300%nat in *.
  rewrite (countdown_clear env 300 w Hclear).
  split; [apply full_countdown_steps|].
  rewrite ticks_full_countdown.
  split; [reflexivity|].
  split; [unfold descending; rewrite length_map, length_rev, length_seq;
          reflexivity|].
  intros i Hi. rewrite nth_descending by exact Hi. lia.
Qed.

Lemma countdown_ticks_300_down_to_1_witness :
  let t := trace (countdown always_timeout (Z.to_nat INTERVAL) world0) in
  t = flat_map (fun r => [IsSet false; CountdownSignal r; Wait1])
               (descending 300)
  /\ ticks t = descending 300
  /\ length (ticks t) = 300%nat
  /\ (forall i, (i < 300)%nat ->
                nth i (ticks t) 0%Z = (300 - Z.of_nat i)%Z).
Proof.
  apply (countdown_ticks_300_down_to_1 always_timeout world0).
  vm_compute. reflexivity.
Defined.

(** ** Delivery phases in which every attempt fails *)

Lemma all_failed_delivery env identifier w :
  let t := trace (delivery env identifier w) in
  saw_stop t = false ->
  forallb is_raised (requests t) = true ->
  t = failed_attempts env identifier [1; 2; 3]%Z (posts w)
      ++ [StatusSignal AllFailed; Log WARNING (AllRetriesFailed identifier)].
Proof.
  cbv zeta. rewrite delivery_trace, saw_stop_app, requests_app, forallb_app.
  intros Hs Hr.
  apply orb_false_iff in Hs. destruct Hs as [Hs _].
  apply andb_true_iff in Hr. destruct Hr as [Hr _].
  destruct (attempts_all_raised env identifier _ w Hs Hr) as [Ht Hv].
  rewrite Hv, Ht. reflexivity.
Qed.

(** C1, as the code has it: after a failed attempt the worker waits out the
    backoff delay whether or not attempts remain.  In a delivery phase in
    which every request raises and the stop event is never seen set, all
    three attempts are made and each is followed by its delay of 2, 4 and 8
    one-second waits, the last of them after the final attempt. *)
Theorem backoff_follows_every_failed_attempt
        (env : Env) (identifier : pystr) (w : World) :
  let t := trace (delivery env identifier w) in
  saw_stop t = false ->
  forallb is_raised (requests t) = true ->
  t = failed_attempts env identifier [1; 2; 3]%Z (posts w)
      ++ [StatusSignal AllFailed; Log WARNING (AllRetriesFailed identifier)]
  /\ length (requests t) = 3%nat
  /\ backoff_waits t
     = map (fun n => Z.to_nat (retry_delay n)) (range 1 (MAX_RETRIES + 1))
  /\ backoff_waits t = [2; 4; 8]%nat.
Proof.
  intros t Hs Hr.
  pose proof (all_failed_delivery env identifier w Hs Hr) as Ht.
  fold t in Ht. rewrite Ht.
  repeat split; reflexivity.
Qed.

Lemma backoff_follows_every_failed_attempt_witness :
  let t := trace (delivery always_timeout [] world0) in
  t = failed_attempts always_timeout [] [1; 2; 3]%Z 0
      ++ [StatusSignal AllFailed; Log WARNING (AllRetriesFailed [])]
  /\ length (requests t) = 3%nat
  /\ backoff_waits t
     = map (fun n => Z.to_nat (retry_delay n)) (range 1 (MAX_RETRIES + 1))
  /\ backoff_waits t = [2; 4; 8]%nat.
Proof.
  apply (backoff_follows_every_failed_attempt always_timeout [] world0);
    vm_compute; reflexivity.
Defined.

(** C1 as stated fails: when every request times out and nobody cancels, the
    final attempt too is followed by a backoff wait (8 seconds), so the
    delivery phase has three backoff waits, not two. *)
Lemma backoff_after_final_attempt_counterexample :
  let t := trace (delivery always_timeout [] world0) in
  saw_stop t = false
  /\ requests t = [Raised timeout_text; Raised timeout_text; Raised timeout_text]
  /\ backoff_waits t = [2; 4; 8]%nat
  /\ nth 2 (backoff_waits t) 0%nat <> 0%nat
  /\ length (filter (Nat.ltb 0) (backoff_waits t)) <> 2%nat.
Proof.
  vm_compute. repeat split; discriminate.
Qed.

(** ** The outcome of a cycle's delivery phase *)

Lemma cycle_outcomes env identifier w :
  let t := trace (cycle env identifier w) in
  exists fails : list (Z * pystr),
    map fst fails = firstn (length fails) [1; 2; 3]%Z
    /\ ((value (delivery env identifier w) = false
         /\ requests t = raised_requests fails
         /\ statuses t = error_reports fails ++ [AllFailed])
        \/ (exists resp,
              value (delivery env identifier w) = true
              /\ (length fails < 3)%nat
              /\ requests t = raised_requests fails ++ [Returned resp]
              /\ statuses t
                 = error_reports fails ++ [status_of 0 (Returned resp)])).
Proof.
  cbv zeta.
  rewrite cycle_requests, cycle_statuses, delivery_value, delivery_trace,
    statuses_app.
  destruct (attempts_shape env identifier (range 1 (MAX_RETRIES + 1)) w)
    as (fails & Hfst & _ & _ & Hcases).
  exists fails. split; [exact Hfst|].
  destruct Hcases as [(Hv & Hq & Hst) | (resp & Hv & Hlen & Hq & Hst)].
  - left. rewrite Hv, Hq, Hst. repeat split.
  - right. exists resp. rewrite Hv, Hq, Hst, app_nil_r. repeat split.
    exact Hlen.
Qed.

Lemma nth_error_raised_requests fails tail : forall i resp,
  nth_error (raised_requests fails ++ tail) i = Some (Returned resp) ->
  (length fails <= i)%nat
  /\ nth_error tail (i - length fails) = Some (Returned resp).
Proof.
  induction fails as [|f fails IH]; intros i resp H.
  - simpl in *. rewrite Nat.sub_0_r. split; [lia | exact H].
  - destruct i as [|i]; [discriminate H|].
    simpl in H. destruct (IH _ _ H) as [Hle Hn].
    split; [simpl; lia | exact Hn].
Qed.

Lemma raised_requests_all_raised fails :
  forallb is_raised (raised_requests fails) = true.
Proof. induction fails as [|f fails IH]; simpl; auto. Qed.

Lemma error_reports_filter (keep : StatusMsg -> bool) fails :
  (forall a e, keep (SendError a e) = false) ->
  filter keep (error_reports fails) = [].
Proof.
  intros Hk. induction fails as [|f fails IH]; [reflexivity|].
  simpl. rewrite Hk. exact IH.
Qed.

(** The response that ends a delivery phase: the request number [k] of the
    cycle returned [resp]. *)
Lemma response_ends_delivery env identifier w k resp :
  let t := trace (cycle env identifier w) in
  (1 <= k)%nat ->
  nth_error (requests t) (k - 1) = Some (Returned resp) ->
  exists fails : list (Z * pystr),
    length fails = (k - 1)%nat
    /\ (k <= 3)%nat
    /\ value (delivery env identifier w) = true
    /\ requests t = raised_requests fails ++ [Returned resp]
    /\ statuses t = error_reports fails ++ [status_of 0 (Returned resp)].
Proof.
  cbv zeta. intros Hk Hn.
  destruct (cycle_outcomes env identifier w)
    as (fails & _ & [(_ & Hq & _) | (resp' & Hv & Hlen & Hq & Hst)]).
  - rewrite Hq, <- (app_nil_r (raised_requests fails)) in Hn.
    apply nth_error_raised_requests in Hn. destruct Hn as [_ Hn].
    destruct (k - 1 - length fails)%nat; discriminate Hn.
  - rewrite Hq in Hn.
    apply nth_error_raised_requests in Hn. destruct Hn as [Hle Hn].
    destruct (k - 1 - length fails)%nat as [|j] eqn:Hj;
      [|destruct j; discriminate Hn].
    injection Hn as ->.
    exists fails. repeat split; try assumption; lia.
Qed.

(** C4: if the request of attempt k (k <= 3) returns a 2xx response, the
    cycle emits exactly one success status, for that response, and makes no
    attempt after the k-th. *)
Theorem success_stops_the_attempts
        (env : Env) (identifier : pystr) (w : World) (k : nat) (resp : Response) :
  let t := trace (cycle env identifier w) in
  (1 <= k)%nat ->
  nth_error (requests t) (k - 1) = Some (Returned resp) ->
  is_2xx (status_code resp) = true ->
  (k <= 3)%nat
  /\ length (requests t) = k
  /\ filter is_ok_status (statuses t)
     = [SendOk (status_code resp) (display_body (body_str resp))]
  /\ ~ In AllFailed (statuses t)
  /\ value (delivery env identifier w) = true.
Proof.
  intros t Hk Hn H2xx.
  destruct (response_ends_delivery env identifier w k resp Hk Hn)
    as (fails & Hlen & Hk3 & Hv & Hq & Hst).
  fold t in Hq, Hst. rewrite Hq, Hst.
  unfold status_of. rewrite H2xx.
  split; [exact Hk3|].
  split; [unfold raised_requests; rewrite length_app, length_map; simpl; lia|].
  split; [rewrite filter_app, error_reports_filter by reflexivity;
          reflexivity|].
  split; [|exact Hv].
  intros Hin. apply in_app_or in Hin. destruct Hin as [Hin|[Hin|[]]];
    [|discriminate Hin].
  unfold error_reports in Hin. apply in_map_iff in Hin.
  destruct Hin as (f & Hf & _). discriminate Hf.
Qed.

Lemma forallb_removelast {A} (f : A -> bool) (l : list A) :
  forallb f l = true -> forallb f (removelast l) = true.
Proof.
  induction l as [|x l IH]; [reflexivity|].
  intros H. apply andb_true_iff in H. destruct H as [Hx Hl].
  destruct l as [|y l]; [reflexivity|].
  change (removelast (x :: y :: l)) with (x :: removelast (y :: l)).
  simpl forallb at 1. rewrite Hx. exact (IH Hl).
Qed.

Lemma success_stops_the_attempts_witness :
  let t := trace (cycle (timeout_then response_200 None) worker_1 world0) in
  (2 <= 3)%nat
  /\ length (requests t) = 2%nat
  /\ filter is_ok_status (statuses t)
     = [SendOk (status_code response_200)
               (display_body (body_str response_200))]
  /\ ~ In AllFailed (statuses t)
  /\ value (delivery (timeout_then response_200 None) worker_1 world0) = true.
Proof.
  apply (success_stops_the_attempts
           (timeout_then response_200 None) worker_1 world0 2 response_200);
    [lia | vm_compute; reflexivity | reflexivity].
Defined.

(** C2: in every cycle, each request that is followed by another one raised
    an exception; and if the request of an attempt returns a non-2xx
    response, the cycle emits the status describing that response, the
    delivery is marked as succeeded, and no further attempt is made. *)
Theorem non_2xx_stops_the_attempts
        (env : Env) (identifier : pystr) (w : World) :
  let t := trace (cycle env identifier w) in
  forallb is_raised (removelast (requests t)) = true
  /\ forall (k : nat) (resp : Response),
       (1 <= k)%nat ->
       nth_error (requests t) (k - 1) = Some (Returned resp) ->
       is_2xx (status_code resp) = false ->
       value (delivery env identifier w) = true
       /\ length (requests t) = k
       /\ (exists fails : list (Z * pystr),
             length fails = (k - 1)%nat
             /\ requests t = raised_requests fails ++ [Returned resp]
             /\ statuses t
                = error_reports fails
                  ++ [Non2xx (status_code resp)
                             (display_body (body_str resp))])
       /\ ~ In AllFailed (statuses t).
Proof.
  intros t. split.
  - destruct (cycle_outcomes env identifier w)
      as (fails & _ & [(_ & Hq & _) | (resp' & _ & _ & Hq & _)]);
      fold t in Hq; rewrite Hq.
    + apply forallb_removelast, raised_requests_all_raised.
    + rewrite removelast_last. apply raised_requests_all_raised.
  - intros k resp Hk Hn H2xx.
    destruct (response_ends_delivery env identifier w k resp Hk Hn)
      as (fails & Hlen & Hk3 & Hv & Hq & Hst).
    fold t in Hq, Hst. unfold status_of in Hst. rewrite H2xx in Hst.
    split; [exact Hv|].
    split; [rewrite Hq; unfold raised_requests;
            rewrite length_app, length_map; simpl; lia|].
    split; [exists fails; repeat split; assumption|].
    rewrite Hst. intros Hin.
    apply in_app_or in Hin. destruct Hin as [Hin|[Hin|[]]];
      [|discriminate Hin].
    unfold error_reports in Hin. apply in_map_iff in Hin.
    destruct Hin as (f & Hf & _). discriminate Hf.
Qed.

Lemma non_2xx_stops_the_attempts_witness :
  let t := trace (cycle (timeout_then response_503 None) worker_1 world0) in
  value (delivery (timeout_then response_503 None) worker_1 world0) = true
  /\ length (requests t) = 2%nat
  /\ (exists fails : list (Z * pystr),
        length fails = (2 - 1)%nat
        /\ requests t = raised_requests fails ++ [Returned response_503]
        /\ statuses t
           = error_reports fails
             ++ [Non2xx (status_code response_503)
                        (display_body (body_str response_503))])
  /\ ~ In AllFailed (statuses t).
Proof.
  apply (proj2 (non_2xx_stops_the_attempts
                  (timeout_then response_503 None) worker_1 world0)
               2 response_503);
    [lia | vm_compute; reflexivity | reflexivity].
Defined.

Example body_str_503 :
  body_str response_503
  = [83; 101; 114; 118; 105; 99; 101; 32; 85; 110; 97; 118; 97; 105; 108;
     97; 98; 108; 101]%N.
Proof. reflexivity. Qed.

(** C5: if every request of a cycle raises, the delivery is not marked as
    succeeded, the statuses of the cycle are the error reports of the
    attempts followed by the total-failure status, none of them reports a
    2xx or a non-2xx response, and the cycle goes on with its interval
    countdown, which, unless cancelled, runs from 300 down to 1. *)
Theorem all_failed_cycle_reports_and_counts_down
        (env : Env) (identifier : pystr) (w : World) :
  let t := trace (cycle env identifier w) in
  forallb is_raised (requests t) = true ->
  value (delivery env identifier w) = false
  /\ (exists fails : list (Z * pystr),
        statuses t = error_reports fails ++ [AllFailed])
  /\ filter (fun m => is_ok_status m || is_non2xx_status m) (statuses t) = []
  /\ t = trace (delivery env identifier w)
         ++ trace (countdown env (Z.to_nat INTERVAL)
                     (after (delivery env identifier w)))
  /\ (saw_stop t = false ->
      t = failed_attempts env identifier [1; 2; 3]%Z (posts w)
          ++ [StatusSignal AllFailed;
              Log WARNING (AllRetriesFailed identifier)]
          ++ full_countdown 300
      /\ statuses t
         = [status_of 1 (responses env (posts w));
            status_of 2 (responses env (S (posts w)));
            status_of 3 (responses env (S (S (posts w))));
            AllFailed]
      /\ ticks t = descending 300).
Proof.
  intros t Hr.
  assert (Hout : value (delivery env identifier w) = false
                 /\ exists fails, statuses t = error_reports fails ++ [AllFailed]).
  { destruct (cycle_outcomes env identifier w)
      as (fails & _ & [(Hv & _ & Hst) | (resp & _ & _ & Hq & _)]).
    - split; [exact Hv | exists fails; exact Hst].
    - unfold t in Hr. rewrite Hq, forallb_app in Hr.
      apply andb_true_iff in Hr. destruct Hr as [_ Hr]. discriminate Hr. }
  destruct Hout as [Hv [fails Hst]].
  split; [exact Hv|].
  split; [exists fails; exact Hst|].
  split; [rewrite Hst, filter_app, error_reports_filter by reflexivity;
          reflexivity|].
  split; [apply cycle_trace|].
  intros Hs. unfold t in *. rewrite cycle_trace in *.
  rewrite saw_stop_app in Hs. apply orb_false_iff in Hs.
  destruct Hs as [Hsd Hsc].
  rewrite requests_app, forallb_app in Hr.
  apply andb_true_iff in Hr. destruct Hr as [Hrd _].
  rewrite (all_failed_delivery env identifier w Hsd Hrd).
  change (Z.to_nat INTERVAL) with 300%nat in *.
  rewrite (countdown_clear env 300 _ Hsc), <- app_assoc.
  split; [reflexivity|].
  split; [reflexivity|].
  rewrite ticks_app, ticks_app, ticks_full_countdown. reflexivity.
Qed.

Lemma all_failed_cycle_reports_and_counts_down_witness :
  let t := trace (cycle always_timeout worker_1 world0) in
  value (delivery always_timeout worker_1 world0) = false
  /\ (exists fails : list (Z * pystr),
        statuses t = error_reports fails ++ [AllFailed])
  /\ filter (fun m => is_ok_status m || is_non2xx_status m) (statuses t) = []
  /\ t = trace (delivery always_timeout worker_1 world0)
         ++ trace (countdown always_timeout (Z.to_nat INTERVAL)
                     (after (delivery always_timeout worker_1 world0)))
  /\ (saw_stop t = false ->
      t = failed_attempts always_timeout worker_1 [1; 2; 3]%Z (posts world0)
          ++ [StatusSignal AllFailed;
              Log WARNING (AllRetriesFailed worker_1)]
          ++ full_countdown 300
      /\ statuses t
         = [status_of 1 (responses always_timeout (posts world0));
            status_of 2 (responses always_timeout (S (posts world0)));
            status_of 3 (responses always_timeout (S (S (posts world0))));
            AllFailed]
      /\ ticks t = descending 300).
Proof.
  apply (all_failed_cycle_reports_and_counts_down
           always_timeout worker_1 world0).
  vm_compute. reflexivity.
Defined.

(** ** After the stop event has been seen *)

Lemma stopped_later env c c' :
  stopped env c = true -> (c <= c')%nat -> stopped env c' = true.
Proof.
  unfold stopped. destruct (stop_from env) as [s|]; [|discriminate].
  rewrite !Nat.leb_le. lia.
Qed.

Lemma winding_down_no_ticks t :
  forallb winding_down t = true -> ticks t = [].
Proof.
  induction t as [|e t IH]; [reflexivity|].
  intros H. apply andb_true_iff in H. destruct H as [He Ht].
  destruct e as [[|]| | | |[]| |]; try discriminate He; exact (IH Ht).
Qed.

Lemma winding_app t1 t2 :
  forallb winding_down (after_stop t1) = true ->
  (saw_stop t1 = true -> forallb winding_down t2 = true) ->
  forallb winding_down (after_stop t2) = true ->
  forallb winding_down (after_stop (t1 ++ t2)) = true.
Proof.
  intros H1 H12 H2. rewrite after_stop_app.
  destruct (saw_stop t1); [|exact H2].
  rewrite forallb_app, H1, H12; reflexivity.
Qed.

Section WindingDown.

Variable env : Env.
Variable identifier : pystr.

Lemma backoff_wait_winding n : forall w,
  forallb winding_down (after_stop (trace (backoff_wait env n w))) = true.
Proof.
  induction n as [|n IH]; intros w; [reflexivity|].
  cbn [backoff_wait]. prog.
  destruct (stopped env (checks w)); prog; [reflexivity|].
  apply IH.
Qed.

Lemma attempts_seen todo w :
  seen env w = true ->
  forallb winding_down (trace (attempts env identifier todo w)) = true
  /\ value (attempts env identifier todo w) = false.
Proof.
  intros Hs. destruct todo as [|attempt rest]; [split; reflexivity|].
  destruct (attempts_stopped env identifier attempt rest w) as [-> ->];
    [apply seen_stopped; exact Hs | split; reflexivity].
Qed.

(** Once an [is_set()] call of the delivery loop has answered [True], the
    loop makes no request and waits no more, and [success] stays [False]. *)
Lemma attempts_winding todo : forall w,
  forallb winding_down (after_stop (trace (attempts env identifier todo w)))
  = true
  /\ (saw_stop (trace (attempts env identifier todo w)) = true ->
      value (attempts env identifier todo w) = false).
Proof.
  induction todo as [|attempt rest IH]; intros w;
    [split; [reflexivity | discriminate]|].
  cbn [attempts]. prog.
  destruct (stopped env (checks w)) eqn:Hs; prog; [split; reflexivity|].
  destruct (responses env (posts w)) as [resp|e] eqn:Hr; prog.
  - rewrite report_response_trace. split; [reflexivity | discriminate].
  - set (w1 := mkWorld (S (checks w)) (S (posts w))).
    set (n := Z.to_nat (retry_delay attempt)).
    change (after_stop (IsSet false :: Log ?a ?b :: Post ?c ?d :: Log ?e0 ?f
                          :: StatusSignal ?g :: ?t)) with (after_stop t).
    change (saw_stop (IsSet false :: Log ?a ?b :: Post ?c ?d :: Log ?e0 ?f
                        :: StatusSignal ?g :: ?t)) with (saw_stop t).
    destruct (accounts_backoff_wait env n w1) as [_ Hseen].
    destruct (IH (after (backoff_wait env n w1))) as [IHw IHv].
    split.
    + apply winding_app; [apply backoff_wait_winding | | exact IHw].
      intros Hb. apply attempts_seen, Hseen, Hb.
    + rewrite saw_stop_app. intros H. apply orb_true_iff in H.
      destruct H as [H|H]; [|exact (IHv H)].
      apply attempts_seen, Hseen, H.
Qed.

Lemma delivery_winding w :
  forallb winding_down (after_stop (trace (delivery env identifier w))) = true.
Proof.
  rewrite delivery_trace.
  apply winding_app; [apply attempts_winding | |];
    destruct (value (attempts env identifier (range 1 (MAX_RETRIES + 1)) w));
    reflexivity.
Qed.

Lemma countdown_seen n w :
  seen env w = true ->
  forallb winding_down (trace (countdown env n w)) = true.
Proof.
  intros Hs. destruct n as [|n]; [reflexivity|].
  rewrite countdown_stopped by (apply seen_stopped; exact Hs).
  reflexivity.
Qed.

Lemma countdown_winding n : forall w,
  forallb winding_down (after_stop (trace (countdown env n w))) = true.
Proof.
  induction n as [|n IH]; intros w; [reflexivity|].
  cbn [countdown]. prog.
  destruct (stopped env (checks w)); prog; [reflexivity|].
  apply IH.
Qed.

Lemma cycle_winding w :
  forallb winding_down (after_stop (trace (cycle env identifier w))) = true.
Proof.
  rewrite cycle_trace.
  apply winding_app; [apply delivery_winding | | apply countdown_winding].
  intros Hd. apply countdown_seen.
  destruct (accounts_delivery env identifier w) as [_ Hseen]. exact (Hseen Hd).
Qed.

Lemma cycle_finishes w : finishes (trace (cycle env identifier w)) = 0%nat.
Proof.
  rewrite cycle_trace, delivery_trace, !finishes_app.
  destruct (attempts_shape env identifier (range 1 (MAX_RETRIES + 1)) w)
    as (_ & _ & _ & -> & _).
  destruct (countdown_silent env (Z.to_nat INTERVAL)
              (after (delivery env identifier w))) as (_ & _ & ->).
  destruct (value (attempts env identifier (range 1 (MAX_RETRIES + 1)) w));
    reflexivity.
Qed.

(** Unfolding of one pass of the outer loop. *)
Lemma main_loop_step fuel w :
  main_loop env identifier (S fuel) w
  = if stopped env (checks w)
    then Some (after (is_set env w), [IsSet true])
    else match main_loop env identifier fuel
                 (after (cycle env identifier (after (is_set env w)))) with
         | Some (w3, t3) =>
             Some (w3, IsSet false
                       :: trace (cycle env identifier (after (is_set env w)))
                       ++ t3)
         | None => None
         end.
Proof.
  cbn [main_loop]. unfold is_set at 1.
  destruct (stopped env (checks w)); [reflexivity|].
  unfold after at 2, trace. rewrite is_set_after.
  destruct (cycle env identifier _) as [[u w2] t2]. reflexivity.
Qed.

Lemma main_loop_more_fuel fuel : forall w r,
  main_loop env identifier fuel w = Some r ->
  main_loop env identifier (S fuel) w = Some r.
Proof.
  induction fuel as [|fuel IH]; intros w r; [discriminate|].
  rewrite (main_loop_step (S fuel)), (main_loop_step fuel).
  destruct (stopped env (checks w)); [auto|].
  destruct (main_loop env identifier fuel _) as [[w3 t3]|] eqn:Hm;
    [|discriminate].
  rewrite (IH _ _ Hm). auto.
Qed.

Lemma main_loop_enough_fuel fuel fuel' w r :
  main_loop env identifier fuel w = Some r -> (fuel <= fuel')%nat ->
  main_loop env identifier fuel' w = Some r.
Proof.
  intros H Hle. induction Hle as [|fuel' _ IH]; [exact H|].
  apply main_loop_more_fuel, IH.
Qed.

(** The loop ends once the stop event is set: after [s - checks w] further
    passes at the latest, every pass consulting the event at least once. *)
Lemma main_loop_terminates s : forall fuel w,
  stop_from env = Some s -> (s < checks w + fuel)%nat ->
  exists r, main_loop env identifier (S fuel) w = Some r.
Proof.
  intros fuel. induction fuel as [|fuel IH]; intros w Hs Hlt;
    rewrite main_loop_step.
  - assert (Hst : stopped env (checks w) = true).
    { unfold stopped. rewrite Hs. apply Nat.leb_le. lia. }
    rewrite Hst. eauto.
  - destruct (stopped env (checks w)); [eauto|].
    destruct (accounts_cycle env identifier (after (is_set env w)))
      as [Hle _].
    rewrite is_set_after in Hle. simpl checks in Hle.
    destruct (IH (after (cycle env identifier (after (is_set env w)))) Hs)
      as [[w3 t3] Hr]; [rewrite is_set_after; lia|].
    rewrite Hr. eauto.
Qed.

(** What the loop has done when it ends: it saw the stop event, emitted no
    [finished_signal] itself, and after the first [True] only wound down. *)
Lemma main_loop_ends fuel : forall w w' t,
  main_loop env identifier fuel w = Some (w', t) ->
  saw_stop t = true
  /\ finishes t = 0%nat
  /\ forallb winding_down (after_stop t) = true.
Proof.
  induction fuel as [|fuel IH]; intros w w' t; [discriminate|].
  rewrite main_loop_step.
  destruct (stopped env (checks w)) eqn:Hst.
  - intros H. injection H as _ <-. repeat split.
  - set (w2 := after (cycle env identifier (after (is_set env w)))).
    destruct (main_loop env identifier fuel w2) as [[w3 t3]|] eqn:Hm;
      [|discriminate].
    intros H. injection H as _ <-.
    destruct (IH _ _ _ Hm) as (Hsaw & Hfin & Hwd).
    change (saw_stop (IsSet false :: ?l)) with (saw_stop l).
    change (finishes (IsSet false :: ?l)) with (finishes l).
    change (after_stop (IsSet false :: ?l)) with (after_stop l).
    rewrite saw_stop_app, finishes_app, Hsaw, Hfin, cycle_finishes,
      orb_true_r.
    repeat split.
    apply winding_app; [apply cycle_winding | | exact Hwd].
    intros Hc.
    destruct (accounts_cycle env identifier (after (is_set env w)))
      as [_ Hseen].
    specialize (Hseen Hc). fold w2 in Hseen.
    destruct fuel as [|fuel]; [discriminate Hm|].
    rewrite main_loop_stopped in Hm by (apply seen_stopped; exact Hseen).
    injection Hm as _ <-. reflexivity.
Qed.

End WindingDown.

(** ** Cancellation *)

(** C6: once the stop event is set (here: from the [is_set()] call number
    [s] on, whichever wait or test that call belongs to), the run leaves its
    loop and returns; it emits [finished_signal] exactly once, as its last
    act, and after the first [is_set()] that answered [True] it emits no
    countdown tick, makes no request and waits no more. *)
Theorem cancellation_ends_the_run
        (outcomes : nat -> PostResult) (s : nat) (identifier : pystr) :
  let env := mkEnv (Some s) outcomes in
  exists t : list Event,
    (forall fuel, (s + 2 <= fuel)%nat -> run env identifier fuel = Some t)
    /\ saw_stop t = true
    /\ finishes t = 1%nat
    /\ last t Wait1 = FinishedSignal
    /\ ticks (after_stop t) = []
    /\ forallb winding_down (after_stop t) = true.
Proof.
  intros env.
  destruct (main_loop_terminates env identifier s (S s) world0)
    as [[w' t'] Hrun]; [reflexivity | simpl; lia|].
  destruct (main_loop_ends env identifier _ _ _ _ Hrun) as (Hsaw & Hfin & Hwd).
  assert (Hafter :
            after_stop ([Log INFO (WorkerStarted identifier)] ++ t'
                          ++ [Log INFO WorkerStopping; FinishedSignal])
            = after_stop t' ++ [Log INFO WorkerStopping; FinishedSignal]).
  { change (after_stop ([Log ?a ?b] ++ ?l)) with (after_stop l).
    rewrite after_stop_app, Hsaw. reflexivity. }
  assert (Hwd' :
            forallb winding_down
              (after_stop ([Log INFO (WorkerStarted identifier)] ++ t'
                             ++ [Log INFO WorkerStopping; FinishedSignal]))
            = true).
  { rewrite Hafter, forallb_app, Hwd. reflexivity. }
  exists ([Log INFO (WorkerStarted identifier)] ++ t'
            ++ [Log INFO WorkerStopping; FinishedSignal]).
  split; [|split; [|split; [|split; [|split]]]].
  - intros fuel Hfuel. unfold run.
    rewrite (main_loop_enough_fuel env identifier _ fuel _ _ Hrun) by lia.
    reflexivity.
  - change (saw_stop ([Log ?a ?b] ++ ?l)) with (saw_stop l).
    rewrite saw_stop_app, Hsaw. reflexivity.
  - rewrite !finishes_app, Hfin. reflexivity.
  - change ([Log INFO (WorkerStarted identifier)] ++ t'
              ++ [Log INFO WorkerStopping; FinishedSignal])
      with (([Log INFO (WorkerStarted identifier)] ++ t')
              ++ [Log INFO WorkerStopping] ++ [FinishedSignal]).
    rewrite !app_assoc. apply last_last.
  - apply winding_down_no_ticks, Hwd'.
  - exact Hwd'.
Qed.

Lemma cancellation_ends_the_run_witness :
  exists t : list Event,
    (forall fuel, (3 + 2 <= fuel)%nat ->
                  run (mkEnv (Some 3) (fun _ => Raised timeout_text))
                      worker_1 fuel = Some t)
    /\ saw_stop t = true
    /\ finishes t = 1%nat
    /\ last t Wait1 = FinishedSignal
    /\ ticks (after_stop t) = []
    /\ forallb winding_down (after_stop t) = true.
Proof.
  exact (cancellation_ends_the_run (fun _ => Raised timeout_text) 3 worker_1).
Defined.

(** Cancellation during the backoff wait that follows a first timeout. *)
Example cancelled_in_backoff :
  option_map emitted (run (mkEnv (Some 3) (fun _ => Raised timeout_text))
                          worker_1 5)
  = Some [StatusSignal (SendError 1 timeout_text);
          StatusSignal AllFailed;
          FinishedSignal].
Proof. reflexivity. Qed.

(** Cancellation during the second one-second wait of the countdown. *)
Example cancelled_in_countdown :
  option_map emitted (run (mkEnv (Some 4) (fun _ => Returned response_200))
                          worker_1 6)
  = Some [StatusSignal (SendOk 200 (display_body (body_str response_200)));
          CountdownSignal 300; CountdownSignal 299;
          FinishedSignal].
Proof. reflexivity. Qed.

(** ** A delivery phase abandoned by cancellation *)

Section Abandoned.

Variable env : Env.
Variable identifier : pystr.

Lemma cycle_after w :
  after (cycle env identifier w)
  = after (countdown env (Z.to_nat INTERVAL) (after (delivery env identifier w))).
Proof. unfold cycle. prog. reflexivity. Qed.

Lemma countdown_stopped_after n w :
  stopped env (checks w) = true ->
  after (countdown env (S n) w) = mkWorld (S (checks w)) (posts w).
Proof.
  intros Hs. cbn [countdown]. prog. rewrite Hs. reflexivity.
Qed.

(** Whatever the loop does from a world it has reached is what the run does
    after what it did to get there. *)
Lemma reaches_main_loop w t :
  loop_reaches env identifier w t ->
  forall fuel w' t',
    main_loop env identifier fuel w = Some (w', t') ->
    exists fuel', main_loop env identifier fuel' world0 = Some (w', t ++ t').
Proof.
  induction 1 as [|w t Hreach IH Hgo]; intros fuel w' t' Hm.
  - exists fuel. exact Hm.
  - rewrite <- app_assoc. cbn [app].
    apply (IH (S fuel)).
    rewrite main_loop_step, Hgo, Hm. reflexivity.
Qed.

(** A cycle in which no attempt succeeded and the stop event is set by the
    end of the delivery loop. *)
Lemma abandoned_cycle w :
  let d := attempts env identifier (range 1 (MAX_RETRIES + 1)) w in
  value d = false ->
  stopped env (checks (after d)) = true ->
  trace (cycle env identifier w)
  = trace d ++ [StatusSignal AllFailed;
                Log WARNING (AllRetriesFailed identifier);
                IsSet true]
  /\ stopped env (checks (after (cycle env identifier w))) = true.
Proof.
  intros d Hv Hset.
  rewrite cycle_trace, cycle_after, delivery_trace, delivery_after.
  fold d. rewrite Hv.
  change (Z.to_nat INTERVAL) with 300%nat.
  rewrite countdown_stopped, countdown_stopped_after by exact Hset.
  split; [rewrite <- app_assoc; reflexivity|].
  simpl checks. apply (stopped_later env (checks (after d))); [exact Hset|lia].
Qed.

(** A cycle in which a request was answered and the stop event is set by
    the end of the delivery loop. *)
Lemma answered_cycle_stopped w :
  let d := attempts env identifier (range 1 (MAX_RETRIES + 1)) w in
  value d = true ->
  stopped env (checks (after d)) = true ->
  trace (cycle env identifier w) = trace d ++ [IsSet true]
  /\ stopped env (checks (after (cycle env identifier w))) = true.
Proof.
  intros d Hv Hset.
  rewrite cycle_trace, cycle_after, delivery_trace, delivery_after.
  fold d. rewrite Hv.
  change (Z.to_nat INTERVAL) with 300%nat.
  rewrite countdown_stopped, countdown_stopped_after by exact Hset.
  split; [rewrite app_nil_r; reflexivity|].
  simpl checks. apply (stopped_later env (checks (after d))); [exact Hset|lia].
Qed.

End Abandoned.

(** C10, as the code has it: take a cycle that starts with the stop event
    clear, and let the event be set by the end of its delivery loop.  If no
    attempt has got a response -- which is the case whenever the delivery
    loop itself sees the event set, at the test that precedes an attempt (the
    first one included) or during a backoff wait -- the cycle still emits the
    total-failure status after the error reports of the attempts made, skips
    the countdown (it only tests the event once more), and the run ends with
    [finished_signal].  If instead a request was answered (the event was set
    while that request was in flight), the status of the response is the
    last status of the cycle, no total-failure status is emitted, the
    countdown is skipped all the same, and the run ends with
    [finished_signal]. *)
Theorem cancelled_delivery_reports_failure_unless_answered
        (env : Env) (identifier : pystr) (w : World) (t0 : list Event) :
  loop_reaches env identifier w t0 ->
  stopped env (checks w) = false ->
  let d := attempts env identifier (range 1 (MAX_RETRIES + 1))
                    (after (is_set env w)) in
  let c := trace (cycle env identifier (after (is_set env w))) in
  (saw_stop (trace d) = true ->
   value d = false /\ stopped env (checks (after d)) = true)
  /\ (value d = false ->
      stopped env (checks (after d)) = true ->
      (exists fails : list (Z * pystr),
          statuses c = error_reports fails ++ [AllFailed])
      /\ ticks c = []
      /\ exists fuel,
           run env identifier fuel
           = Some ([Log INFO (WorkerStarted identifier)]
                     ++ t0
                     ++ [IsSet false]
                     ++ trace d
                     ++ [StatusSignal AllFailed;
                         Log WARNING (AllRetriesFailed identifier);
                         IsSet true;
                         IsSet true;
                         Log INFO WorkerStopping;
                         FinishedSignal]))
  /\ (value d = true ->
      stopped env (checks (after d)) = true ->
      (exists (fails : list (Z * pystr)) (resp : Response),
          requests (trace d) = raised_requests fails ++ [Returned resp]
          /\ statuses c
             = error_reports fails ++ [status_of 0 (Returned resp)])
      /\ ~ In AllFailed (statuses c)
      /\ ticks c = []
      /\ exists fuel,
           run env identifier fuel
           = Some ([Log INFO (WorkerStarted identifier)]
                     ++ t0
                     ++ [IsSet false]
                     ++ trace d
                     ++ [IsSet true;
                         IsSet true;
                         Log INFO WorkerStopping;
                         FinishedSignal])).
Proof.
  intros Hreach Hgo d c.
  destruct (attempts_shape env identifier (range 1 (MAX_RETRIES + 1))
              (after (is_set env w)))
    as (fails & _ & Hticks & _ & Hcases).
  fold d in Hticks, Hcases.
  assert (Hends : forall tail,
             c = trace d ++ tail ++ [IsSet true] ->
             stopped env
               (checks (after (cycle env identifier (after (is_set env w)))))
             = true ->
             exists fuel,
               run env identifier fuel
               = Some ([Log INFO (WorkerStarted identifier)]
                         ++ t0 ++ [IsSet false] ++ trace d
                         ++ tail
                         ++ [IsSet true; IsSet true;
                             Log INFO WorkerStopping; FinishedSignal])).
  { intros tail Hc Hstopped.
    assert (Hloop :
              main_loop env identifier 2 w
              = Some (after (is_set env
                               (after (cycle env identifier
                                         (after (is_set env w))))),
                      IsSet false :: c ++ [IsSet true])).
    { rewrite main_loop_step, Hgo, main_loop_step, Hstopped. reflexivity. }
    destruct (reaches_main_loop env identifier w t0 Hreach _ _ _ Hloop)
      as [fuel Hrun].
    exists fuel. unfold run. rewrite Hrun, Hc.
    repeat (rewrite <- ?app_assoc; cbn [app]). reflexivity. }
  split; [|split].
  - intros Hsaw.
    destruct (attempts_winding env identifier (range 1 (MAX_RETRIES + 1))
                (after (is_set env w))) as [_ Hv].
    destruct (accounts_attempts env identifier (range 1 (MAX_RETRIES + 1))
                (after (is_set env w))) as [_ Hseen].
    split; [exact (Hv Hsaw) | apply seen_stopped, Hseen, Hsaw].
  - intros Hv Hset.
    destruct (abandoned_cycle env identifier (after (is_set env w)) Hv Hset)
      as (Hcycle & Hstopped).
    fold d c in Hcycle.
    split; [|split].
    + exists fails. rewrite Hcycle, statuses_app.
      destruct Hcases as [(_ & _ & ->) | (resp & Hv' & _)];
        [reflexivity | congruence].
    + rewrite Hcycle, ticks_app, Hticks. reflexivity.
    + apply (Hends [StatusSignal AllFailed;
                    Log WARNING (AllRetriesFailed identifier)]);
        [exact Hcycle | exact Hstopped].
  - intros Hv Hset.
    destruct (answered_cycle_stopped env identifier (after (is_set env w))
                Hv Hset) as (Hcycle & Hstopped).
    fold d c in Hcycle.
    destruct Hcases as [(Hv' & _) | (resp & _ & _ & Hq & Hst)];
      [congruence|].
    assert (Hsc : statuses c
                  = error_reports fails ++ [status_of 0 (Returned resp)]).
    { rewrite Hcycle, statuses_app, Hst. apply app_nil_r. }
    split; [exists fails, resp; split; [exact Hq | exact Hsc]|].
    split; [|split].
    + rewrite Hsc. intros Hin.
      apply in_app_or in Hin. destruct Hin as [Hin|[Hin|[]]].
      * unfold error_reports in Hin. apply in_map_iff in Hin.
        destruct Hin as (f & Hf & _). discriminate Hf.
      * unfold status_of in Hin.
        destruct (is_2xx (status_code resp)); discriminate Hin.
    + rewrite Hcycle, ticks_app, Hticks. reflexivity.
    + apply (Hends []); [exact Hcycle | exact Hstopped].
Qed.

(** The event is set between the loop test and the first attempt. *)
Lemma cancelled_delivery_reports_failure_unless_answered_witness :
  let env := mkEnv (Some 1) (fun _ => Raised timeout_text) in
  let d := attempts env worker_1 (range 1 (MAX_RETRIES + 1))
                    (after (is_set env world0)) in
  let c := trace (cycle env worker_1 (after (is_set env world0))) in
  (exists fails : list (Z * pystr),
      statuses c = error_reports fails ++ [AllFailed])
  /\ ticks c = []
  /\ exists fuel,
       run env worker_1 fuel
       = Some ([Log INFO (WorkerStarted worker_1)]
                 ++ []
                 ++ [IsSet false]
                 ++ trace d
                 ++ [StatusSignal AllFailed;
                     Log WARNING (AllRetriesFailed worker_1);
                     IsSet true;
                     IsSet true;
                     Log INFO WorkerStopping;
                     FinishedSignal]).
Proof.
  intros env.
  apply (proj1 (proj2 (cancelled_delivery_reports_failure_unless_answered
                         env worker_1 world0 [] (reaches_start env worker_1)
                         eq_refl)));
    reflexivity.
Defined.

(** C10 as stated fails: the stop event is clear at the loop test and at the
    test that precedes the first attempt, and it is set while the request of
    that attempt is in flight; the request is then answered with 200.  The
    event is set during the delivery phase, before any attempt has
    succeeded, yet the only status of the cycle is the success report: no
    total-failure status is emitted before the countdown is skipped and
    [finished_signal] is emitted. *)
Lemma stop_during_answered_request_counterexample :
  let env := mkEnv (Some 2) (fun _ => Returned response_200) in
  let d := attempts env worker_1 (range 1 (MAX_RETRIES + 1))
                    (after (is_set env world0)) in
  let c := trace (cycle env worker_1 (after (is_set env world0))) in
  stopped env (checks world0) = false
  /\ trace d
     = [IsSet false;
        Log DEBUG (AttemptSending 1 (mkPayload worker_1 vps));
        Post (mkPayload worker_1 vps) (Returned response_200);
        StatusSignal (SendOk 200 (display_body (body_str response_200)));
        Log INFO (LogSuccess
                    (render_status
                       (SendOk 200 (display_body (body_str response_200)))))]
  /\ stopped env (checks (after d)) = true
  /\ statuses c = [SendOk 200 (display_body (body_str response_200))]
  /\ ~ In AllFailed (statuses c)
  /\ ticks c = []
  /\ option_map emitted (run env worker_1 2)
     = Some [StatusSignal (SendOk 200 (display_body (body_str response_200)));
             FinishedSignal].
Proof.
  cbv zeta. repeat split; try reflexivity.
  intros [H|[]]. discriminate H.
Qed.

(** The event is set during the second backoff wait of the second cycle. *)
Example abandoned_in_second_cycle :
  option_map (fun t => emitted (skipn 905 t))
    (run (mkEnv (Some 308) (fun k => match k with
                                     | O => Returned response_200
                                     | S _ => Raised timeout_text
                                     end))
         worker_1 3)
  = Some [CountdownSignal 1;
          StatusSignal (SendError 1 timeout_text);
          StatusSignal (SendError 2 timeout_text);
          StatusSignal AllFailed;
          FinishedSignal].
Proof. vm_compute. reflexivity. Qed.

(** The event is set during the last second of the third backoff wait: the
    delivery loop never sees it, the countdown does. *)
Example abandoned_after_last_backoff :
  option_map emitted (run (mkEnv (Some 18) (fun _ => Raised timeout_text))
                          worker_1 2)
  = Some [StatusSignal (SendError 1 timeout_text);
          StatusSignal (SendError 2 timeout_text);
          StatusSignal (SendError 3 timeout_text);
          StatusSignal AllFailed;
          FinishedSignal].
Proof. reflexivity. Qed.

(** The event is set while a request is in flight and the request then gets
    its response: the attempt has succeeded, and its status is the only one. *)
Example cancelled_during_answered_request :
  option_map emitted (run (mkEnv (Some 2) (fun _ => Returned response_200))
                          worker_1 2)
  = Some [StatusSignal (SendOk 200 (display_body (body_str response_200)));
          FinishedSignal].
Proof. reflexivity. Qed.

(** ** The window keeps a single engine *)

Module MainWindowFacts.

Import MainWindow.

Lemma nth_error_update f : forall l a b,
  nth_error (update a f l) b
  = if Nat.eqb a b then option_map f (nth_error l b) else nth_error l b.
Proof.
  induction l as [|o l IH]; intros a b.
  - destruct a, b; simpl; try reflexivity; destruct (Nat.eqb a b); reflexivity.
  - destruct a as [|a], b as [|b]; simpl; try reflexivity. apply IH.
Qed.

(** An update that does not release or revive its object leaves the
    invariant alone. *)
Lemma holds_update s s' a f :
  (forall o, nth_error (objects s) a = Some o ->
             (thread (f o) <> Released <-> thread o <> Released)) ->
  worker s' = worker s ->
  objects s' = update a f (objects s) ->
  holds_its_engines s -> holds_its_engines s'.
Proof.
  intros Hf Hw Ho [I1 I2]. unfold holds_its_engines, exists_engine in *.
  rewrite Hw, Ho. split.
  - intros b o Hn He. rewrite nth_error_update in Hn.
    destruct (Nat.eqb_spec a b) as [<-|Hab]; [|eauto].
    destruct (nth_error (objects s) a) as [o0|] eqn:Ha; [|discriminate].
    injection Hn as <-. apply (I1 a o0 Ha). apply (Hf o0 eq_refl), He.
  - intros b Hb. destruct (I2 b Hb) as (o & Hn & He).
    rewrite nth_error_update, Hn.
    destruct (Nat.eqb_spec a b) as [<-|Hab]; simpl; eexists; split; eauto.
    apply (Hf o Hn), He.
Qed.

Lemma holds_same s s' :
  worker s' = worker s -> objects s' = objects s ->
  holds_its_engines s -> holds_its_engines s'.
Proof.
  unfold holds_its_engines. intros -> ->. auto.
Qed.

Lemma holds_on_start s : holds_its_engines s -> holds_its_engines (on_start s).
Proof.
  intros H. unfold on_start.
  destruct (PyStr.strip (identifier_edit_text s)) as [|c ident];
    [apply (holds_same s); auto|].
  destruct (worker s) as [a|] eqn:Hw; [apply (holds_same s); auto|].
  destruct H as [I1 I2]. rewrite Hw in I1.
  unfold holds_its_engines, exists_engine. simpl. split.
  - intros b o Hn He.
    destruct (Nat.lt_ge_cases b (length (objects s))) as [Hlt|Hge].
    + rewrite nth_error_app1 in Hn by exact Hlt.
      discriminate (I1 b o Hn He).
    + rewrite nth_error_app2 in Hn by exact Hge.
      destruct (b - length (objects s))%nat as [|j] eqn:Hj;
        [|destruct j; discriminate Hn].
      f_equal. lia.
  - intros b Hb. injection Hb as <-.
    rewrite nth_error_app2, Nat.sub_diag by apply Nat.le_refl.
    eexists; split; [reflexivity | discriminate].
Qed.

Lemma holds_step s s' : step s s' -> holds_its_engines s -> holds_its_engines s'.
Proof.
  intros Hstep H.
  destruct Hstep as [s txt|s|s|s|s m|s r|s a o Hn Hr Hs|s a o Hn He].
  - apply (holds_same s); auto.
  - apply holds_on_start, H.
  - unfold on_stop. destruct (worker s) as [a|] eqn:Hw; [|exact H].
    apply (holds_update s _ a stop); auto. intros o _; reflexivity.
  - unfold closeEvent. destruct (worker s) as [a|] eqn:Hw; [|exact H].
    apply (holds_update s _ a stop); auto. intros o _; reflexivity.
  - apply (holds_same s); auto.
  - apply (holds_same s); auto.
  - apply (holds_update s _ a (set_thread Exited)); auto.
    intros o' Ho'. assert (o' = o) as -> by congruence.
    simpl. rewrite Hr. split; intros _; discriminate.
  - destruct H as [I1 I2]. unfold holds_its_engines, exists_engine in *.
    simpl. split; [|discriminate].
    intros b o' Hb Hne. exfalso.
    assert (Hwa : worker s = Some a).
    { apply (I1 a o Hn). rewrite He. discriminate. }
    rewrite nth_error_update in Hb.
    destruct (Nat.eqb_spec a b) as [<-|Hab].
    + rewrite Hn in Hb. injection Hb as <-. apply Hne. reflexivity.
    + apply Hab. specialize (I1 b o' Hb Hne). congruence.
Qed.

Lemma reachable_holds s : reachable s -> holds_its_engines s.
Proof.
  induction 1 as [|s s' _ IH Hstep].
  - split; [intros [|a] o Hn; discriminate Hn | discriminate].
  - exact (holds_step s s' Hstep IH).
Qed.

Lemma holds_single s : holds_its_engines s -> single_instance s.
Proof.
  intros [I1 _] a b oa ob Ha Hea Hb Heb.
  pose proof (I1 a oa Ha Hea) as Hwa.
  pose proof (I1 b ob Hb Heb) as Hwb.
  congruence.
Qed.

(** C8: [on_start] creates and starts a new engine exactly when the trimmed
    identifier is non-empty and the window holds no engine; with a blank
    identifier, or with an engine already held, it only changes the status
    text.  In every state the window can reach, it holds no engine exactly
    when no engine exists, so at most one engine exists at any time, also
    after [on_start]. *)
Theorem on_start_keeps_a_single_engine (s : State) :
  let ident := PyStr.strip (identifier_edit_text s) in
  ((exists o, objects (on_start s) = objects s ++ [o])
   <-> (ident <> [] /\ worker s = None))
  /\ (ident <> [] -> worker s = None ->
      on_start s
      = mkState (identifier_edit_text s) false
                (timer_label s) Text.running
                false true
                (Some (length (objects s)))
                (objects s ++ [mkWorker ident false Running]))
  /\ (ident = [] -> on_start s = set_status Text.id_missing s)
  /\ (ident <> [] -> worker s <> None ->
      on_start s = set_status Text.already_running s)
  /\ (reachable s ->
      (worker s = None
       <-> forall a o, nth_error (objects s) a = Some o -> thread o = Released)
      /\ single_instance s
      /\ single_instance (on_start s)).
Proof.
  intros ident.
  assert (Hsame : forall l (o : PingWorker), l <> l ++ [o]).
  { intros l o H. apply (f_equal (@length _)) in H.
    rewrite length_app in H. simpl in H. lia. }
  split; [split|split; [|split; [|split]]].
  - intros [o Ho]. unfold on_start in Ho. fold ident in Ho.
    destruct ident as [|c ident']; [exfalso; exact (Hsame _ _ Ho)|].
    destruct (worker s); [exfalso; exact (Hsame _ _ Ho)|].
    split; [discriminate | reflexivity].
  - intros [Hi Hw]. unfold on_start. fold ident. rewrite Hw.
    destruct ident as [|c ident']; [contradiction|].
    eexists. reflexivity.
  - intros Hi Hw. unfold on_start. fold ident. rewrite Hw.
    destruct ident as [|c ident']; [contradiction | reflexivity].
  - intros Hi. unfold on_start. fold ident. rewrite Hi. reflexivity.
  - intros Hi Hw. unfold on_start. fold ident.
    destruct ident as [|c ident']; [contradiction|].
    destruct (worker s); [reflexivity | contradiction].
  - intros Hreach. pose proof (reachable_holds s Hreach) as Hholds.
    split; [split|split].
    + intros Hw a o Hn. destruct Hholds as [I1 _].
      destruct (thread o) eqn:Ho; [| |reflexivity];
        (assert (He : exists_engine o)
           by (unfold exists_engine; rewrite Ho; discriminate));
        pose proof (I1 a o Hn He); congruence.
    + intros Hnone. destruct Hholds as [_ I2].
      destruct (worker s) as [a|]; [|reflexivity].
      destruct (I2 a eq_refl) as (o & Hn & He).
      exfalso. exact (He (Hnone a o Hn)).
    + apply holds_single, Hholds.
    + apply holds_single, holds_on_start, Hholds.
Qed.

(** A second click on Start, with an engine running: nothing is created. *)
Lemma on_start_keeps_a_single_engine_witness :
  let s := on_start (set_text worker_1 init) in
  (worker s = None
   <-> forall a o, nth_error (objects s) a = Some o -> thread o = Released)
  /\ single_instance s
  /\ single_instance (on_start s).
Proof.
  intros s.
  apply (proj2 (proj2 (proj2 (proj2 (on_start_keeps_a_single_engine s))))).
  apply (reach_step (set_text worker_1 init)); [|apply step_start].
  apply (reach_step init); [apply reach_init | apply step_text].
Defined.

Example second_start_is_refused :
  let s := on_start (set_text worker_1 init) in
  objects s = [mkWorker worker_1 false Running]
  /\ worker s = Some 0%nat
  /\ on_start s = set_status Text.already_running s
  /\ objects (on_start s) = objects s.
Proof. repeat split. Qed.

Example start_after_finished :
  let s := on_start (set_text worker_1 init) in
  let s' := on_finished
              (mkState (identifier_edit_text s) (identifier_edit_enabled s)
                       (timer_label s) (status_label s)
                       (start_btn_enabled s) (stop_btn_enabled s)
                       (worker s)
                       (update 0 (set_thread Released) (objects s))) in
  objects (on_start s')
  = [mkWorker worker_1 false Released; mkWorker worker_1 false Running]
  /\ worker (on_start s') = Some 1%nat.
Proof. repeat split. Qed.

Example blank_identifier_is_refused :
  on_start (set_text [32; 9]%N init) = set_status Text.id_missing (set_text [32; 9]%N init).
Proof. reflexivity. Qed.

End MainWindowFacts.

(** ** The status texts tell the four reports apart *)

Lemma render_status_kind m1 m2 :
  render_status m1 = render_status m2 ->
  is_ok_status m1 = is_ok_status m2
  /\ is_non2xx_status m1 = is_non2xx_status m2
  /\ is_error_status m1 = is_error_status m2.
Proof.
  destruct m1, m2;
    cbv [render_status Text.ok_open Text.non2xx_open Text.error_open
         Text.all_failed app];
    intros H; try (repeat split; reflexivity); discriminate H.
Qed.

Example render_non2xx :
  render_status (Non2xx 503 (display_body (body_str response_503)))
  = [1662; 1575; 1587; 1582; 32; 53; 48; 51; 32; 8212; 32;
     83; 101; 114; 118; 105; 99; 101; 32; 85; 110; 97; 118; 97; 105; 108;
     97; 98; 108; 101]%N.
Proof. reflexivity. Qed.

Example on_countdown_299 :
  MainWindow.timer_label (MainWindow.on_countdown 299 MainWindow.init)
  = [48; 52; 58; 53; 57]%N.
Proof. reflexivity. Qed.

(** ** The run ends by cancellation only *)

Lemma main_loop_never_stopped env identifier fuel : forall w,
  stop_from env = None -> main_loop env identifier fuel w = None.
Proof.
  induction fuel as [|fuel IH]; intros w Hnone; [reflexivity|].
  rewrite main_loop_step. unfold stopped at 1. rewrite Hnone.
  rewrite (IH _ Hnone). reflexivity.
Qed.

(** X1: [run] returns only through cancellation.  If the stop event is never
    set the outer loop never ends, whatever the requests do; and a run that
    has returned saw the event set and emitted [finished_signal] last. *)
Theorem run_returns_only_when_cancelled (env : Env) (identifier : pystr) :
  (stop_from env = None -> forall fuel, run env identifier fuel = None)
  /\ (forall fuel t,
        run env identifier fuel = Some t ->
        (exists s, stop_from env = Some s)
        /\ saw_stop t = true
        /\ finishes t = 1%nat
        /\ exists body, t = body ++ [FinishedSignal]).
Proof.
  split.
  - intros Hnone fuel. unfold run.
    rewrite (main_loop_never_stopped env identifier fuel world0 Hnone).
    reflexivity.
  - intros fuel t Hrun. unfold run in Hrun.
    destruct (main_loop env identifier fuel world0) as [[w' t']|] eqn:Hloop;
      [|discriminate Hrun].
    injection Hrun as <-.
    destruct (main_loop_ends env identifier _ _ _ _ Hloop)
      as (Hsaw & Hfin & _).
    split; [|split; [|split]].
    + destruct (stop_from env) as [s|] eqn:Hs; [exists s; reflexivity|].
      rewrite (main_loop_never_stopped env identifier fuel world0 Hs) in Hloop.
      discriminate Hloop.
    + change (saw_stop (Log ?a ?b :: ?l)) with (saw_stop l).
      rewrite saw_stop_app, Hsaw. reflexivity.
    + change (finishes (Log ?a ?b :: ?l)) with (finishes l).
      rewrite finishes_app, Hfin. reflexivity.
    + exists (Log INFO (WorkerStarted identifier)
                :: t' ++ [Log INFO WorkerStopping]).
      cbn [app]. rewrite <- app_assoc. reflexivity.
Qed.

Lemma run_returns_only_when_cancelled_witness :
  run always_timeout worker_1 3 = None.
Proof.
  exact (proj1 (run_returns_only_when_cancelled always_timeout worker_1)
               eq_refl 3%nat).
Defined.

(** ** Waits and countdowns cut short *)

Lemma waits_app t1 t2 : waits (t1 ++ t2) = (waits t1 + waits t2)%nat.
Proof. unfold waits. rewrite filter_app, length_app. reflexivity. Qed.

(** X2: a countdown, cancelled or not, emits a prefix of n, n-1, ..., 1: it
    performs k <= n steps, each one a test of the stop event, the tick, and
    then the one-second wait, and when it stops early (k < n) it is because
    the next test found the event set. *)
Theorem countdown_emits_a_prefix (env : Env) (n : nat) : forall w : World,
  exists k : nat,
    (k <= n)%nat
    /\ trace (countdown env n w) = countdown_prefix n k
    /\ ticks (trace (countdown env n w)) = firstn k (descending n)
    /\ waits (trace (countdown env n w)) = k.
Proof.
  induction n as [|n IH]; intros w.
  - exists 0%nat. split; [lia | repeat split].
  - cbn [countdown]. prog.
    destruct (stopped env (checks w)) eqn:Hs; prog.
    + exists 0%nat. split; [lia|]. repeat split.
    + destruct (IH (mkWorld (S (checks w)) (posts w)))
        as (k & Hk & Ht & Hticks & Hw).
      exists (S k). split; [lia|].
      unfold countdown_prefix. rewrite descending_S.
      cbn [firstn flat_map app].
      change (ticks (IsSet false :: CountdownSignal ?r :: Wait1 :: ?l))
        with (r :: ticks l).
      change (waits (IsSet false :: CountdownSignal ?r :: Wait1 :: ?l))
        with (S (waits l)).
      rewrite Hticks, Hw, Ht. unfold countdown_prefix.
      change (S k <? S n)%nat with (k <? n)%nat.
      repeat split.
Qed.

(** X3: a backoff wait of [n] seconds performs k <= n one-second waits, each
    after a test that found the stop event clear; it performs fewer than [n]
    only when the next test found the event set, and then it waits no
    more. *)
Theorem backoff_wait_is_bounded (env : Env) (n : nat) : forall w : World,
  exists k : nat,
    (k <= n)%nat
    /\ trace (backoff_wait env n w)
       = clear_waits k ++ (if (k <? n)%nat then [IsSet true] else [])
    /\ waits (trace (backoff_wait env n w)) = k.
Proof.
  induction n as [|n IH]; intros w.
  - exists 0%nat. split; [lia | repeat split].
  - cbn [backoff_wait]. prog.
    destruct (stopped env (checks w)) eqn:Hs; prog.
    + exists 0%nat. split; [lia|]. repeat split.
    + destruct (IH (mkWorld (S (checks w)) (posts w))) as (k & Hk & Ht & Hw).
      exists (S k). split; [lia|].
      change (waits (IsSet false :: Wait1 :: ?l)) with (S (waits l)).
      rewrite Hw, Ht. cbn [clear_waits app].
      change (S k <? S n)%nat with (k <? n)%nat.
      repeat split.
Qed.

(** ** Bounds on what one cycle does *)

Lemma display_body_length body : (PyStr.len (display_body body) <= 303)%nat.
Proof.
  unfold display_body, PyStr.slice_to, PyStr.ellipsis, PyStr.len.
  destruct (Nat.ltb_spec 300 (length body)); [|lia].
  rewrite length_app, length_firstn. simpl length. lia.
Qed.

Lemma fails_at_most_three (fails : list (Z * pystr)) :
  map fst fails = firstn (length fails) [1; 2; 3]%Z ->
  (length fails <= 3)%nat.
Proof.
  intros H. apply (f_equal (@length Z)) in H.
  rewrite length_map, length_firstn in H. simpl length in H. lia.
Qed.

Lemma error_reports_numbered (fails : list (Z * pystr)) :
  forall todo, map fst fails = firstn (length fails) todo ->
  forall i a e,
    nth_error (error_reports fails) i = Some (SendError a e) ->
    nth_error todo i = Some a
    /\ exists e', nth_error (raised_requests fails) i = Some (Raised e')
                  /\ e = PyStr.slice_to 200 e'.
Proof.
  induction fails as [|[a0 e0] fails IH]; intros todo Hfst i a e Hn.
  - destruct i; discriminate Hn.
  - destruct todo as [|a1 todo]; [discriminate Hfst|].
    simpl in Hfst. injection Hfst as Ha Hrest.
    destruct i as [|i]; simpl in Hn |- *.
    + injection Hn as <- <-. split; [congruence|].
      eexists; split; reflexivity.
    + exact (IH todo Hrest i a e Hn).
Qed.

Lemma cycle_status_counts
        (env : Env) (identifier : pystr) (w : World) :
  let t := trace (cycle env identifier w) in
  (length (requests t) <= Z.to_nat MAX_RETRIES)%nat
  /\ length (statuses t)
     = (length (requests t)
        + (if value (delivery env identifier w) then 0 else 1))%nat
  /\ (forall i a e,
        nth_error (statuses t) i = Some (SendError a e) ->
        a = Z.of_nat (S i)
        /\ exists e', nth_error (requests t) i = Some (Raised e')
                      /\ e = PyStr.slice_to 200 e').
Proof.
  intros t.
  destruct (cycle_outcomes env identifier w) as (fails & Hfst & Hcases).
  fold t in Hcases.
  pose proof (fails_at_most_three fails Hfst) as Hlen.
  assert (Hnum : forall i a e,
             nth_error (error_reports fails) i = Some (SendError a e) ->
             a = Z.of_nat (S i)
             /\ exists e', nth_error (raised_requests fails) i
                           = Some (Raised e')
                           /\ e = PyStr.slice_to 200 e').
  { intros i a e Hn.
    destruct (error_reports_numbered fails _ Hfst i a e Hn) as [Ha He].
    split; [|exact He].
    do 3 (destruct i as [|i]; [injection Ha as <-; reflexivity|]).
    destruct i; discriminate Ha. }
  assert (Hfinal : forall (x : StatusMsg) (y : list PostResult) i a e,
             is_error_status x = false ->
             nth_error (error_reports fails ++ [x]) i = Some (SendError a e) ->
             nth_error (error_reports fails) i = Some (SendError a e)
             /\ nth_error (raised_requests fails ++ y) i
                = nth_error (raised_requests fails) i).
  { intros x y i a e Hx Hn.
    assert (Hi : (i < length fails)%nat).
    { destruct (Nat.lt_ge_cases i (length (error_reports fails)))
        as [Hlt|Hge].
      - unfold error_reports in Hlt. rewrite length_map in Hlt. exact Hlt.
      - rewrite nth_error_app2 in Hn by exact Hge.
        destruct (i - length (error_reports fails))%nat as [|j];
          [|destruct j; discriminate Hn].
        injection Hn as ->. discriminate Hx. }
    split.
    - rewrite nth_error_app1 in Hn
        by (unfold error_reports; rewrite length_map; exact Hi).
      exact Hn.
    - apply nth_error_app1. unfold raised_requests. rewrite length_map.
      exact Hi. }
  destruct Hcases as [(Hv & Hq & Hst) | (resp & Hv & Hlt & Hq & Hst)];
    rewrite Hv, Hq, Hst.
  - split; [unfold raised_requests; rewrite length_map; exact Hlen|].
    split; [unfold raised_requests, error_reports;
            rewrite length_app, !length_map; reflexivity|].
    intros i a e Hn.
    destruct (Hfinal AllFailed [] i a e eq_refl Hn) as [Hn' _].
    exact (Hnum i a e Hn').
  - split; [unfold raised_requests; rewrite length_app, length_map;
            simpl; change (Z.to_nat MAX_RETRIES) with 3%nat; lia|].
    split; [unfold raised_requests, error_reports;
            rewrite !length_app, !length_map; simpl; lia|].
    intros i a e Hn.
    assert (Hx : is_error_status (status_of 0 (Returned resp)) = false).
    { unfold status_of. destruct (is_2xx (status_code resp)); reflexivity. }
    destruct (Hfinal _ [Returned resp] i a e Hx Hn) as [Hn' Hreq].
    rewrite Hreq. exact (Hnum i a e Hn').
Qed.

(** The statuses of a run of failed attempts followed by [tail], read off
    the requests and the attempt numbers [todo]. *)
Lemma error_reports_combine (fails : list (Z * pystr)) :
  forall todo tail,
    map fst fails = firstn (length fails) todo ->
    map (fun p => status_of (fst p) (snd p))
        (combine todo (raised_requests fails ++ tail))
    = error_reports fails
      ++ map (fun p => status_of (fst p) (snd p))
             (combine (skipn (length fails) todo) tail).
Proof.
  induction fails as [|[a e] fails IH]; intros todo tail Hfst.
  - reflexivity.
  - destruct todo as [|a1 todo]; [discriminate Hfst|].
    simpl in Hfst. injection Hfst as Ha Hrest.
    cbn [raised_requests error_reports map app combine length skipn fst snd
         status_of].
    fold (raised_requests fails). fold (error_reports fails).
    rewrite (IH todo tail Hrest), Ha. reflexivity.
Qed.

(** X4: the statuses of a cycle are determined by its requests.  A cycle
    makes at most [MAX_RETRIES] = 3 requests; the delivery is marked as
    succeeded exactly when some request was answered; the statuses are, in
    order, the status of each request (the error report numbered 1, 2, 3 for
    a request that raised, the response report for one that was answered),
    followed by the total-failure status exactly when no request was
    answered -- in particular when no request was made at all. *)
Theorem cycle_requests_and_statuses
        (env : Env) (identifier : pystr) (w : World) :
  let t := trace (cycle env identifier w) in
  (length (requests t) <= Z.to_nat MAX_RETRIES)%nat
  /\ value (delivery env identifier w) = negb (forallb is_raised (requests t))
  /\ statuses t
     = map (fun p => status_of (fst p) (snd p))
           (combine (range 1 (MAX_RETRIES + 1)) (requests t))
       ++ (if forallb is_raised (requests t) then [AllFailed] else [])
  /\ length (statuses t)
     = (length (requests t)
        + (if value (delivery env identifier w) then 0 else 1))%nat
  /\ (forall i a e,
        nth_error (statuses t) i = Some (SendError a e) ->
        a = Z.of_nat (S i)
        /\ exists e', nth_error (requests t) i = Some (Raised e')
                      /\ e = PyStr.slice_to 200 e').
Proof.
  intros t.
  destruct (cycle_status_counts env identifier w) as (Hlen & Hcount & Hnum).
  fold t in Hlen, Hcount, Hnum.
  split; [exact Hlen|].
  split; [|split; [|split; [exact Hcount | exact Hnum]]];
    destruct (cycle_outcomes env identifier w)
      as (fails & Hfst & [(Hv & Hq & Hst) | (resp & Hv & Hlt & Hq & Hst)]);
    fold t in Hq, Hst; rewrite ?Hv, Hq, ?Hst;
    change (range 1 (MAX_RETRIES + 1)) with [1; 2; 3]%Z.
  - rewrite raised_requests_all_raised. reflexivity.
  - rewrite forallb_app, raised_requests_all_raised. reflexivity.
  - rewrite raised_requests_all_raised.
    rewrite <- (app_nil_r (raised_requests fails)) at 1.
    rewrite (error_reports_combine fails _ [] Hfst), combine_nil.
    cbn [map]. rewrite app_nil_r. reflexivity.
  - rewrite forallb_app, raised_requests_all_raised.
    cbn [forallb is_raised andb]. rewrite app_nil_r.
    rewrite (error_reports_combine fails _ [Returned resp] Hfst).
    f_equal.
    destruct fails as [|f1 [|f2 [|f3 fails]]];
      [reflexivity | reflexivity | reflexivity | simpl in Hlt; lia].
Qed.

Lemma cycle_requests_and_statuses_witness :
  let t := trace (cycle always_timeout worker_1 world0) in
  (length (requests t) <= Z.to_nat MAX_RETRIES)%nat
  /\ value (delivery always_timeout worker_1 world0)
     = negb (forallb is_raised (requests t))
  /\ statuses t
     = map (fun p => status_of (fst p) (snd p))
           (combine (range 1 (MAX_RETRIES + 1)) (requests t))
       ++ (if forallb is_raised (requests t) then [AllFailed] else [])
  /\ length (statuses t)
     = (length (requests t)
        + (if value (delivery always_timeout worker_1 world0) then 0 else 1))%nat
  /\ (forall i a e,
        nth_error (statuses t) i = Some (SendError a e) ->
        a = Z.of_nat (S i)
        /\ exists e', nth_error (requests t) i = Some (Raised e')
                      /\ e = PyStr.slice_to 200 e').
Proof.
  exact (cycle_requests_and_statuses always_timeout worker_1 world0).
Defined.

Lemma backoff_wait_waits env n : forall w,
  (waits (trace (backoff_wait env n w)) <= n)%nat.
Proof.
  induction n as [|n IH]; intros w; [apply Nat.le_refl|].
  cbn [backoff_wait]. prog.
  destruct (stopped env (checks w)); prog; [apply Nat.le_0_l|].
  change (waits (IsSet false :: Wait1 :: ?l)) with (S (waits l)).
  apply le_n_S, IH.
Qed.

Lemma countdown_waits env n : forall w,
  (waits (trace (countdown env n w)) <= n)%nat.
Proof.
  induction n as [|n IH]; intros w; [apply Nat.le_refl|].
  cbn [countdown]. prog.
  destruct (stopped env (checks w)); prog; [apply Nat.le_0_l|].
  change (waits (IsSet false :: CountdownSignal ?r :: Wait1 :: ?l))
    with (S (waits l)).
  apply le_n_S, IH.
Qed.

Lemma attempts_waits env identifier todo : forall w,
  (waits (trace (attempts env identifier todo w))
   <= list_sum (map (fun a => Z.to_nat (retry_delay a)) todo))%nat.
Proof.
  induction todo as [|attempt rest IH]; intros w; [apply Nat.le_refl|].
  cbn [attempts map list_sum fold_right]. prog.
  destruct (stopped env (checks w)); prog; [apply Nat.le_0_l|].
  destruct (responses env (posts w)) as [resp|e]; prog.
  - rewrite report_response_trace. apply Nat.le_0_l.
  - change (waits (IsSet false :: Log ?a ?b :: Post ?c ?d :: Log ?e0 ?f
                     :: StatusSignal ?g :: ?t)) with (waits t).
    rewrite waits_app.
    apply Nat.add_le_mono; [apply backoff_wait_waits | apply IH].
Qed.

Lemma waits_full_countdown n : waits (full_countdown n) = n.
Proof.
  induction n as [|n IH]; [reflexivity|].
  cbn [full_countdown].
  change (waits (IsSet false :: CountdownSignal ?r :: Wait1 :: ?l))
    with (S (waits l)).
  rewrite IH. reflexivity.
Qed.

(** X5: one cycle waits at most 14 seconds in its delivery phase (2 + 4 + 8)
    and at most 314 seconds in all, and it waits exactly 314 when every
    request raises and the stop event is never seen set. *)
Theorem cycle_waits_at_most_314
        (env : Env) (identifier : pystr) (w : World) :
  let t := trace (cycle env identifier w) in
  (waits (trace (delivery env identifier w)) <= 14)%nat
  /\ (waits t <= 314)%nat
  /\ (saw_stop t = false ->
      forallb is_raised (requests t) = true ->
      waits t = 314%nat).
Proof.
  intros t.
  assert (Hd : (waits (trace (delivery env identifier w)) <= 14)%nat).
  { rewrite delivery_trace, waits_app.
    pose proof (attempts_waits env identifier (range 1 (MAX_RETRIES + 1)) w)
      as Ha.
    change (list_sum _) with 14%nat in Ha.
    destruct (value (attempts env identifier (range 1 (MAX_RETRIES + 1)) w)).
    - change (waits []) with 0%nat. lia.
    - change (waits [StatusSignal AllFailed;
                     Log WARNING (AllRetriesFailed identifier)])
        with 0%nat.
      lia. }
  split; [exact Hd|].
  split.
  - unfold t. rewrite cycle_trace, waits_app.
    pose proof (countdown_waits env (Z.to_nat INTERVAL)
                  (after (delivery env identifier w))) as Hc.
    change (Z.to_nat INTERVAL) with 300%nat in *. lia.
  - unfold t. rewrite cycle_trace.
    rewrite saw_stop_app, requests_app, forallb_app.
    intros Hs Hr.
    apply orb_false_iff in Hs. destruct Hs as [Hsd Hsc].
    apply andb_true_iff in Hr. destruct Hr as [Hrd _].
    rewrite (all_failed_delivery env identifier w Hsd Hrd).
    change (Z.to_nat INTERVAL) with 300%nat in *.
    rewrite (countdown_clear env 300 _ Hsc).
    rewrite !waits_app, waits_full_countdown. reflexivity.
Qed.

Lemma cycle_waits_at_most_314_witness :
  waits (trace (cycle always_timeout worker_1 world0)) = 314%nat.
Proof.
  apply (proj2 (proj2 (cycle_waits_at_most_314
                         always_timeout worker_1 world0)));
    vm_compute; reflexivity.
Defined.

(** X6: no status of a cycle carries more than the cuts allow: an error
    report at most 200 characters of the exception text, a response report
    at most 303 characters of body (300 and the ellipsis). *)
Theorem cycle_statuses_within_cuts
        (env : Env) (identifier : pystr) (w : World) :
  Forall within_cuts (statuses (trace (cycle env identifier w))).
Proof.
  destruct (cycle_outcomes env identifier w)
    as (fails & _ & [(_ & _ & ->) | (resp & _ & _ & _ & ->)]);
    apply Forall_app; split.
  - unfold error_reports. apply Forall_forall. intros m Hin.
    apply in_map_iff in Hin. destruct Hin as (f & <- & _).
    cbn [within_cuts]. unfold PyStr.len, PyStr.slice_to.
    rewrite length_firstn. lia.
  - repeat constructor.
  - unfold error_reports. apply Forall_forall. intros m Hin.
    apply in_map_iff in Hin. destruct Hin as (f & <- & _).
    cbn [within_cuts]. unfold PyStr.len, PyStr.slice_to.
    rewrite length_firstn. lia.
  - constructor; [|constructor].
    unfold status_of. destruct (is_2xx (status_code resp));
      apply display_body_length.
Qed.

(** ** The order of the signals of a cycle *)

Lemma emitted_app t1 t2 : emitted (t1 ++ t2) = emitted t1 ++ emitted t2.
Proof. apply filter_app. Qed.

Lemma emitted_statuses_only t :
  ticks t = [] -> finishes t = 0%nat ->
  emitted t = map StatusSignal (statuses t).
Proof.
  induction t as [|e t IH]; [reflexivity|].
  destruct e; intros Ht Hf;
    try discriminate Ht; try discriminate Hf;
    cbn [emitted filter statuses flat_map app map];
    try (f_equal); apply IH; assumption.
Qed.

Lemma emitted_ticks_only t :
  statuses t = [] -> finishes t = 0%nat ->
  emitted t = map CountdownSignal (ticks t).
Proof.
  induction t as [|e t IH]; [reflexivity|].
  destruct e; intros Hs Hf;
    try discriminate Hs; try discriminate Hf;
    cbn [emitted filter ticks flat_map app map];
    try (f_equal); apply IH; assumption.
Qed.

(** X7: in every cycle the status signals all come before the countdown
    ticks, and a cycle emits nothing else: no request is reported during the
    interval phase, no tick during the delivery phase, and
    [finished_signal] never inside a cycle. *)
Theorem cycle_emits_statuses_then_ticks
        (env : Env) (identifier : pystr) (w : World) :
  let t := trace (cycle env identifier w) in
  emitted t = map StatusSignal (statuses t) ++ map CountdownSignal (ticks t)
  /\ ticks (trace (delivery env identifier w)) = []
  /\ statuses (trace (countdown env (Z.to_nat INTERVAL)
                        (after (delivery env identifier w)))) = []
  /\ requests (trace (countdown env (Z.to_nat INTERVAL)
                        (after (delivery env identifier w)))) = [].
Proof.
  intros t.
  destruct (attempts_shape env identifier (range 1 (MAX_RETRIES + 1)) w)
    as (_ & _ & Hat & Haf & _).
  destruct (countdown_silent env (Z.to_nat INTERVAL)
              (after (delivery env identifier w))) as (Hcr & Hcs & Hcf).
  assert (Hdt : ticks (trace (delivery env identifier w)) = []).
  { rewrite delivery_trace, ticks_app, Hat.
    destruct (value (attempts env identifier (range 1 (MAX_RETRIES + 1)) w));
      reflexivity. }
  assert (Hdf : finishes (trace (delivery env identifier w)) = 0%nat).
  { rewrite delivery_trace, finishes_app, Haf.
    destruct (value (attempts env identifier (range 1 (MAX_RETRIES + 1)) w));
      reflexivity. }
  split; [|split; [exact Hdt | split; [exact Hcs | exact Hcr]]].
  unfold t. rewrite cycle_trace, emitted_app, statuses_app, ticks_app.
  rewrite Hcs, Hdt, app_nil_r. cbn [app].
  rewrite (emitted_statuses_only _ Hdt Hdf), (emitted_ticks_only _ Hcs Hcf).
  reflexivity.
Qed.

(** ** A cycle whose first request is answered *)

Lemma report_response_after resp w : after (report_response resp w) = w.
Proof.
  unfold report_response.
  destruct (is_2xx (status_code resp)); reflexivity.
Qed.

Lemma attempts_answered env identifier attempt rest w resp :
  stopped env (checks w) = false ->
  responses env (posts w) = Returned resp ->
  value (attempts env identifier (attempt :: rest) w) = true
  /\ after (attempts env identifier (attempt :: rest) w)
     = mkWorld (S (checks w)) (S (posts w))
  /\ requests (trace (attempts env identifier (attempt :: rest) w))
     = [Returned resp]
  /\ statuses (trace (attempts env identifier (attempt :: rest) w))
     = [status_of attempt (Returned resp)]
  /\ waits (trace (attempts env identifier (attempt :: rest) w)) = 0%nat
  /\ saw_stop (trace (attempts env identifier (attempt :: rest) w)) = false.
Proof.
  intros Hs Hr. cbn [attempts]. prog. rewrite Hs. prog. rewrite Hr. prog.
  rewrite report_response_trace.
  split; [reflexivity|]. split; [apply report_response_after|].
  repeat split.
Qed.

(** X8: when the first request of a cycle gets a response, 2xx or not, and
    the stop event is not seen set during the cycle, that request is the only
    one, its status is the only status, there is no backoff wait, and the
    countdown runs in full from 300 down to 1. *)
Theorem answered_first_request_cycle
        (env : Env) (identifier : pystr) (w : World) (resp : Response) :
  responses env (posts w) = Returned resp ->
  let t := trace (cycle env identifier w) in
  saw_stop t = false ->
  value (delivery env identifier w) = true
  /\ requests t = [Returned resp]
  /\ statuses t = [status_of 1 (Returned resp)]
  /\ ticks t = descending 300
  /\ waits t = 300%nat.
Proof.
  intros Hr t Hclear.
  assert (Hs : stopped env (checks w) = false).
  { destruct (stopped env (checks w)) eqn:Hs; [|reflexivity].
    unfold t in Hclear.
    rewrite cycle_trace, delivery_trace, !saw_stop_app in Hclear.
    destruct (attempts_stopped env identifier 1 [2; 3]%Z w Hs) as [Ht _].
    change (range 1 (MAX_RETRIES + 1)) with [1; 2; 3]%Z in Hclear.
    rewrite Ht in Hclear. discriminate Hclear. }
  destruct (attempts_answered env identifier 1 [2; 3]%Z w resp Hs Hr)
    as (Hv & Ha & Hq & Hst & Hw & Hsaw).
  change [1; 2; 3]%Z with (range 1 (MAX_RETRIES + 1)) in Hv, Ha, Hq, Hst, Hw, Hsaw.
  unfold t in *.
  rewrite cycle_trace, saw_stop_app in Hclear.
  apply orb_false_iff in Hclear. destruct Hclear as [_ Hc].
  rewrite delivery_value, cycle_requests, cycle_statuses, cycle_trace.
  rewrite ticks_app, waits_app.
  change (Z.to_nat INTERVAL) with 300%nat in *.
  rewrite (countdown_clear env 300 _ Hc), ticks_full_countdown,
    waits_full_countdown.
  rewrite delivery_trace, statuses_app, ticks_app, waits_app, Hv, Hq, Hst, Hw.
  destruct (attempts_shape env identifier (range 1 (MAX_RETRIES + 1)) w)
    as (_ & _ & -> & _).
  repeat split.
Qed.

Lemma answered_first_request_cycle_witness :
  let env := mkEnv None (fun _ => Returned response_503) in
  let t := trace (cycle env worker_1 world0) in
  value (delivery env worker_1 world0) = true
  /\ requests t = [Returned response_503]
  /\ statuses t = [status_of 1 (Returned response_503)]
  /\ ticks t = descending 300
  /\ waits t = 300%nat.
Proof.
  intros env.
  apply (answered_first_request_cycle env worker_1 world0 response_503);
    [reflexivity | vm_compute; reflexivity].
Defined.

(** ** The status texts *)

(** X9: the text shown for a status tells which of the four reports it is:
    two statuses with the same text are both success reports, both non-2xx
    reports, both error reports, or both the total-failure report. *)
Theorem status_text_tells_the_report (m1 m2 : StatusMsg) :
  render_status m1 = render_status m2 ->
  is_ok_status m1 = is_ok_status m2
  /\ is_non2xx_status m1 = is_non2xx_status m2
  /\ is_error_status m1 = is_error_status m2
  /\ (m1 = AllFailed <-> m2 = AllFailed).
Proof.
  intros H. destruct (render_status_kind m1 m2 H) as (Hok & Hnon & Herr).
  repeat split; try assumption;
    intros ->; destruct m1 || destruct m2;
    try reflexivity; discriminate.
Qed.

Lemma status_text_tells_the_report_witness :
  is_ok_status (SendOk 200 []) = is_ok_status (SendOk 200 [])
  /\ is_non2xx_status (SendOk 200 []) = is_non2xx_status (SendOk 200 [])
  /\ is_error_status (SendOk 200 []) = is_error_status (SendOk 200 [])
  /\ (SendOk 200 [] = AllFailed <-> SendOk 200 [] = AllFailed).
Proof.
  apply (status_text_tells_the_report (SendOk 200 []) (SendOk 200 [])).
  reflexivity.
Defined.

(** ** Stripping an identifier *)

Lemma lstrip_head s : forall c t,
  PyStr.lstrip s = c :: t -> PyStr.isspace c = false.
Proof.
  induction s as [|x s IH]; intros c t H; [discriminate H|].
  simpl in H. destruct (PyStr.isspace x) eqn:Hx; [exact (IH c t H)|].
  injection H as <- _. exact Hx.
Qed.

Lemma lstrip_fixed s :
  match s with [] => True | c :: _ => PyStr.isspace c = false end ->
  PyStr.lstrip s = s.
Proof.
  destruct s as [|c s]; [reflexivity|].
  intros Hc. simpl. rewrite Hc. reflexivity.
Qed.

Lemma lstrip_suffix s : exists pre, s = pre ++ PyStr.lstrip s.
Proof.
  induction s as [|x s [pre IH]]; [exists []; reflexivity|].
  simpl. destruct (PyStr.isspace x).
  - exists (x :: pre). simpl. rewrite <- IH. reflexivity.
  - exists []. reflexivity.
Qed.

Lemma lstrip_lstrip s : PyStr.lstrip (PyStr.lstrip s) = PyStr.lstrip s.
Proof.
  apply lstrip_fixed.
  destruct (PyStr.lstrip s) as [|c t] eqn:H; [exact I|].
  exact (lstrip_head s c t H).
Qed.

(** Stripping twice is stripping once. *)
Lemma strip_strip s : PyStr.strip (PyStr.strip s) = PyStr.strip s.
Proof.
  unfold PyStr.strip, PyStr.rstrip.
  set (l := PyStr.lstrip s).
  set (m := PyStr.lstrip (rev l)).
  assert (Hfix : PyStr.lstrip (rev m) = rev m).
  { apply lstrip_fixed.
    destruct (rev m) as [|c t] eqn:Hm; [exact I|].
    destruct (lstrip_suffix (rev l)) as [pre Hpre]. fold m in Hpre.
    apply (f_equal (@rev _)) in Hpre.
    rewrite rev_involutive, rev_app_distr, Hm in Hpre.
    simpl in Hpre. apply (lstrip_head s c (t ++ rev pre)).
    fold l. exact Hpre. }
  rewrite Hfix, rev_involutive. unfold m. rewrite lstrip_lstrip.
  reflexivity.
Qed.

(** ** More on the window *)

Module WindowFacts.

Import MainWindow.

Lemma update_update f : (forall o, f (f o) = f o) ->
  forall l a, update a f (update a f l) = update a f l.
Proof.
  intros Hf. induction l as [|o l IH]; intros a; [destruct a; reflexivity|].
  destruct a as [|a]; simpl; [rewrite Hf | rewrite IH]; reflexivity.
Qed.

(** X10: in every state the window can reach, the Start button and the
    identifier field are enabled exactly when the window holds no worker,
    and the Stop button is enabled only while it holds one. *)
Theorem affordances_follow_the_worker (s : State) :
  reachable s ->
  (start_btn_enabled s = true <-> worker s = None)
  /\ (identifier_edit_enabled s = true <-> worker s = None)
  /\ (stop_btn_enabled s = true -> worker s <> None).
Proof.
  induction 1 as [|s s' _ IH Hstep].
  - simpl. repeat split; auto; discriminate.
  - destruct IH as (IH1 & IH2 & IH3).
    destruct Hstep;
      unfold on_start, on_stop, closeEvent, on_status, on_countdown,
        on_finished, set_status, set_text;
      repeat match goal with
             | |- context [match ?x with _ => _ end] => destruct x eqn:?
             end;
      simpl; repeat split; intros; try tauto; try discriminate;
      try congruence.
    all: try (apply IH1; congruence); try (apply IH2; congruence).
    all: try (exfalso; apply IH3; [assumption | congruence]).
Qed.

Lemma affordances_follow_the_worker_witness :
  let s := on_stop (on_start (set_text worker_1 init)) in
  (start_btn_enabled s = true <-> worker s = None)
  /\ (identifier_edit_enabled s = true <-> worker s = None)
  /\ (stop_btn_enabled s = true -> worker s <> None).
Proof.
  intros s. apply (affordances_follow_the_worker s).
  apply (reach_step (on_start (set_text worker_1 init))); [|apply step_stop].
  apply (reach_step (set_text worker_1 init)); [|apply step_start].
  apply (reach_step init); [apply reach_init | apply step_text].
Defined.

(** Where the objects of the state after a step come from: each is an
    object of the state before with the same identifier, or the worker that
    [on_start] has just created from the stripped, non-empty text. *)
Lemma step_objects_origin s s' :
  step s s' ->
  forall a o', nth_error (objects s') a = Some o' ->
    (exists o, nth_error (objects s) a = Some o
               /\ identifier o' = identifier o)
    \/ (identifier o' = PyStr.strip (identifier_edit_text s)
        /\ PyStr.strip (identifier_edit_text s) <> []).
Proof.
  assert (Hupd : forall f l a0 a o',
             (forall o, identifier (f o) = identifier o) ->
             nth_error (update a0 f l) a = Some o' ->
             exists o, nth_error l a = Some o
                       /\ identifier o' = identifier o).
  { intros f l a0 a o' Hf Hn. rewrite MainWindowFacts.nth_error_update in Hn.
    destruct (Nat.eqb a0 a); [|eauto].
    destruct (nth_error l a) as [o|]; [|discriminate Hn].
    injection Hn as <-. eauto. }
  intros Hstep a o' Hn.
  destruct Hstep as [s txt|s|s|s|s m|s r|s a0 o Ha Hr Hs|s a0 o Ha He];
    try (left; exists o'; split; [exact Hn | reflexivity]).
  - unfold on_start in Hn.
    destruct (PyStr.strip (identifier_edit_text s)) as [|c ident] eqn:Hid;
      [left; exists o'; split; [exact Hn | reflexivity]|].
    destruct (worker s);
      [left; exists o'; split; [exact Hn | reflexivity]|].
    simpl in Hn.
    destruct (Nat.lt_ge_cases a (length (objects s))) as [Hlt|Hge].
    + rewrite nth_error_app1 in Hn by exact Hlt.
      left; exists o'; split; [exact Hn | reflexivity].
    + rewrite nth_error_app2 in Hn by exact Hge.
      destruct (a - length (objects s))%nat as [|j];
        [|destruct j; discriminate Hn].
      injection Hn as <-. right. split; [reflexivity | discriminate].
  - unfold on_stop in Hn. destruct (worker s) as [a1|];
      [|left; exists o'; split; [exact Hn | reflexivity]].
    left. apply (Hupd stop _ a1); [reflexivity | exact Hn].
  - unfold closeEvent in Hn. destruct (worker s) as [a1|];
      [|left; exists o'; split; [exact Hn | reflexivity]].
    left. apply (Hupd stop _ a1); [reflexivity | exact Hn].
  - left. apply (Hupd (set_thread Exited) _ a0); [reflexivity | exact Hn].
  - left. apply (Hupd (set_thread Released) _ a0); [reflexivity | exact Hn].
Qed.

(** X11: every worker the window has ever created carries a non-empty
    identifier without leading or trailing whitespace (stripping it again
    changes nothing): a blank or whitespace-only text never becomes the
    identifier of an engine. *)
Theorem workers_have_stripped_identifiers (s : State) :
  reachable s ->
  forall a o, nth_error (objects s) a = Some o ->
    identifier o <> []
    /\ PyStr.strip (identifier o) = identifier o.
Proof.
  induction 1 as [|s s' _ IH Hstep]; intros a o Hn.
  - destruct a; discriminate Hn.
  - destruct (step_objects_origin s s' Hstep a o Hn)
      as [(o0 & Hn0 & Hid) | (Hid & Hne)]; rewrite Hid.
    + exact (IH a o0 Hn0).
    + split; [exact Hne | apply strip_strip].
Qed.

Lemma workers_have_stripped_identifiers_witness :
  identifier (mkWorker worker_1 false Running) <> []
  /\ PyStr.strip (identifier (mkWorker worker_1 false Running))
     = identifier (mkWorker worker_1 false Running).
Proof.
  apply (workers_have_stripped_identifiers
           (on_start (set_text ([32; 9] ++ worker_1 ++ [10])%N init))
           (reach_step _ _
              (reach_step _ _ reach_init
                 (step_text init ([32; 9] ++ worker_1 ++ [10])%N))
              (step_start _))
           0%nat (mkWorker worker_1 false Running)).
  reflexivity.
Defined.

Example whitespace_around_identifier :
  objects (on_start (set_text ([32; 9] ++ worker_1 ++ [10])%N init))
  = [mkWorker worker_1 false Running].
Proof. reflexivity. Qed.

(** X12: [on_stop] sets the stop event of the worker the window holds and of
    no other object, keeps the reference to it, and is idempotent; it does
    not free the slot: a Start click right after Stop creates nothing. *)
Theorem on_stop_signals_the_held_worker (s : State) :
  on_stop (on_stop s) = on_stop s
  /\ worker (on_stop s) = worker s
  /\ (worker s <> None -> objects (on_start (on_stop s)) = objects (on_stop s))
  /\ (reachable s ->
      forall a, worker s = Some a ->
        exists o,
          nth_error (objects s) a = Some o
          /\ nth_error (objects (on_stop s)) a = Some (stop o)
          /\ stop_event (stop o) = true
          /\ thread (stop o) = thread o
          /\ forall b, b <> a ->
               nth_error (objects (on_stop s)) b = nth_error (objects s) b).
Proof.
  split; [|split; [|split]].
  - unfold on_stop. destruct (worker s) as [a|] eqn:Hw; simpl.
    + rewrite update_update by reflexivity. reflexivity.
    + rewrite Hw. reflexivity.
  - unfold on_stop. destruct (worker s) eqn:Hw; simpl;
      [reflexivity | exact Hw].
  - intros Hw. unfold on_start.
    destruct (PyStr.strip (identifier_edit_text (on_stop s)));
      [reflexivity|].
    destruct (worker s) as [a|] eqn:Hws; [|exfalso; apply Hw; reflexivity].
    unfold on_stop. rewrite Hws. reflexivity.
  - intros Hreach a Hw.
    destruct (MainWindowFacts.reachable_holds s Hreach) as [_ I2].
    destruct (I2 a Hw) as (o & Hn & _).
    exists o. unfold on_stop. rewrite Hw. simpl.
    split; [exact Hn|].
    split; [rewrite MainWindowFacts.nth_error_update, Nat.eqb_refl, Hn;
            reflexivity|].
    split; [reflexivity|]. split; [reflexivity|].
    intros b Hb. rewrite MainWindowFacts.nth_error_update.
    destruct (Nat.eqb_spec a b); [congruence | reflexivity].
Qed.

Lemma on_stop_signals_the_held_worker_witness :
  let s := on_start (set_text worker_1 init) in
  objects (on_start (on_stop s)) = objects (on_stop s).
Proof.
  intros s.
  apply (proj1 (proj2 (proj2 (on_stop_signals_the_held_worker s)))).
  discriminate.
Defined.

Lemma advances_refl l : advances l l.
Proof. destruct l; exact I. Qed.

Lemma advances_trans l1 l2 l3 :
  advances l1 l2 -> advances l2 l3 -> advances l1 l3.
Proof. destruct l1, l2, l3; simpl; tauto. Qed.

Lemma step_keeps_objects s s' :
  step s s' ->
  forall a o, nth_error (objects s) a = Some o ->
    exists o',
      nth_error (objects s') a = Some o'
      /\ identifier o' = identifier o
      /\ (stop_event o = true -> stop_event o' = true)
      /\ advances (thread o) (thread o').
Proof.
  assert (Hsame : forall (o : PingWorker),
             identifier o = identifier o
             /\ (stop_event o = true -> stop_event o = true)
             /\ advances (thread o) (thread o)).
  { intros o. repeat split; [auto | apply advances_refl]. }
  assert (Hupd : forall f l a0 a o,
             (identifier (f o) = identifier o
              /\ (stop_event o = true -> stop_event (f o) = true)
              /\ advances (thread o) (thread (f o))) ->
             nth_error l a = Some o ->
             exists o',
               nth_error (update a0 f l) a = Some o'
               /\ identifier o' = identifier o
               /\ (stop_event o = true -> stop_event o' = true)
               /\ advances (thread o) (thread o')).
  { intros f l a0 a o Hf Hn. rewrite MainWindowFacts.nth_error_update, Hn.
    destruct (Nat.eqb a0 a); simpl; eexists; split;
      try reflexivity; [exact Hf | apply Hsame]. }
  intros Hstep a o Hn.
  destruct Hstep as [s txt|s|s|s|s m|s r|s a0 o0 Ha Hr Hs|s a0 o0 Ha He];
    try (exists o; split; [exact Hn | apply Hsame]).
  - unfold on_start.
    destruct (PyStr.strip (identifier_edit_text s));
      [exists o; split; [exact Hn | apply Hsame]|].
    destruct (worker s); [exists o; split; [exact Hn | apply Hsame]|].
    exists o. simpl. split; [|apply Hsame].
    rewrite nth_error_app1; [exact Hn|].
    apply nth_error_Some. rewrite Hn. discriminate.
  - unfold on_stop. destruct (worker s) as [a1|];
      [|exists o; split; [exact Hn | apply Hsame]].
    simpl. apply Hupd; [|exact Hn].
    repeat split; try apply advances_refl; auto.
  - unfold closeEvent. destruct (worker s) as [a1|];
      [|exists o; split; [exact Hn | apply Hsame]].
    simpl. apply Hupd; [|exact Hn].
    repeat split; try apply advances_refl; auto.
  - simpl. rewrite MainWindowFacts.nth_error_update.
    destruct (Nat.eqb_spec a0 a) as [->|Hne].
    + rewrite Hn. simpl. eexists; split; [reflexivity|].
      assert (o0 = o) as -> by congruence.
      repeat split; [auto | rewrite Hr; exact I].
    + exists o; split; [exact Hn | apply Hsame].
  - simpl. rewrite MainWindowFacts.nth_error_update.
    destruct (Nat.eqb_spec a0 a) as [->|Hne].
    + rewrite Hn. simpl. eexists; split; [reflexivity|].
      assert (o0 = o) as -> by congruence.
      repeat split; [auto | rewrite He; exact I].
    + exists o; split; [exact Hn | apply Hsame].
Qed.

(** X13: whatever happens to the window, a worker object stays where it is
    and keeps its identifier; its stop event, once set, stays set; and its
    thread only moves forward (running, exited, released). *)
Theorem worker_objects_persist (s s' : State) :
  steps s s' ->
  forall a o, nth_error (objects s) a = Some o ->
    exists o',
      nth_error (objects s') a = Some o'
      /\ identifier o' = identifier o
      /\ (stop_event o = true -> stop_event o' = true)
      /\ advances (thread o) (thread o').
Proof.
  induction 1 as [s|s s1 s2 _ IH Hstep]; intros a o Hn.
  - exists o. repeat split; [exact Hn | auto | apply advances_refl].
  - destruct (IH a o Hn) as (o1 & Hn1 & Hid1 & Hst1 & Hth1).
    destruct (step_keeps_objects s1 s2 Hstep a o1 Hn1)
      as (o2 & Hn2 & Hid2 & Hst2 & Hth2).
    exists o2. split; [exact Hn2|].
    split; [congruence|].
    split; [auto | exact (advances_trans _ _ _ Hth1 Hth2)].
Qed.

Lemma worker_objects_persist_witness :
  let s := on_start (set_text worker_1 init) in
  exists o',
    nth_error (objects (closeEvent (on_stop s))) 0 = Some o'
    /\ identifier o' = identifier (mkWorker worker_1 false Running)
    /\ (stop_event (mkWorker worker_1 false Running) = true ->
        stop_event o' = true)
    /\ advances (thread (mkWorker worker_1 false Running)) (thread o').
Proof.
  intros s.
  apply (worker_objects_persist s (closeEvent (on_stop s))).
  - apply (steps_more s (on_stop s)); [|apply step_close].
    apply (steps_more s s); [apply steps_none | apply step_stop].
  - reflexivity.
Defined.

Lemma timer_text_round_trip (n : nat) :
  (n < Z.to_nat 6000)%nat ->
  parse_timer (PyStr.format_02d (Z.of_nat n / 60)
               ++ [58%N] ++ PyStr.format_02d (Z.of_nat n mod 60))
  = Some (Z.of_nat n).
Proof.
  intros Hn.
  assert (Hall :
            forallb
              (fun k =>
                 match parse_timer
                         (PyStr.format_02d (Z.of_nat k / 60)
                          ++ [58%N] ++ PyStr.format_02d (Z.of_nat k mod 60))
                 with
                 | Some r => (r =? Z.of_nat k)%Z
                 | None => false
                 end)
              (seq 0 (Z.to_nat 6000)) = true)
    by (vm_compute; reflexivity).
  rewrite forallb_forall in Hall.
  specialize (Hall n). rewrite in_seq in Hall.
  specialize (Hall (conj (Nat.le_0_l n) Hn)).
  destruct (parse_timer _) as [r|]; [|discriminate Hall].
  apply Z.eqb_eq in Hall. rewrite Hall. reflexivity.
Qed.

(** X14: for every number of seconds below 100 minutes, the text that
    [on_countdown] puts on the timer reads back as that number (two digits
    of minutes, a colon, two digits of seconds); the other widgets, the
    worker reference and the objects are left alone; and the first tick of a
    countdown, 300, shows the same text as the reset of [on_finished]. *)
Theorem timer_label_reads_back (s : State) (r : Z) :
  (0 <= r < 6000)%Z ->
  parse_timer (timer_label (on_countdown r s)) = Some r
  /\ length (timer_label (on_countdown r s)) = 5%nat
  /\ worker (on_countdown r s) = worker s
  /\ objects (on_countdown r s) = objects s
  /\ status_label (on_countdown r s) = status_label s
  /\ timer_label (on_countdown INTERVAL s) = timer_label (on_finished s).
Proof.
  intros Hr.
  assert (Hparse : parse_timer (timer_label (on_countdown r s)) = Some r).
  { pose proof (timer_text_round_trip (Z.to_nat r)) as H.
    rewrite Z2Nat.id in H by lia. apply H. lia. }
  split; [exact Hparse|].
  split; [|repeat split].
  destruct (timer_label (on_countdown r s))
    as [|c1 [|c2 [|c3 [|c4 [|c5 [|c6 l]]]]]];
    try discriminate Hparse; reflexivity.
Qed.

Lemma timer_label_reads_back_witness :
  parse_timer (timer_label (on_countdown 299 init)) = Some 299%Z
  /\ length (timer_label (on_countdown 299 init)) = 5%nat
  /\ worker (on_countdown 299 init) = worker init
  /\ objects (on_countdown 299 init) = objects init
  /\ status_label (on_countdown 299 init) = status_label init
  /\ timer_label (on_countdown INTERVAL init) = timer_label (on_finished init).
Proof. apply (timer_label_reads_back init 299). lia. Defined.

Lemma on_finished_absorbs e s : on_finished (deliver e s) = on_finished s.
Proof. destruct e; reflexivity. Qed.

Lemma on_finished_absorbs_all t : forall s,
  on_finished (deliver_all t s) = on_finished s.
Proof.
  induction t as [|e t IH]; intros s; [reflexivity|].
  unfold deliver_all in *. simpl. rewrite IH. apply on_finished_absorbs.
Qed.

Lemma deliver_all_keeps_worker t : forall s,
  finishes t = 0%nat ->
  worker (deliver_all t s) = worker s
  /\ objects (deliver_all t s) = objects s
  /\ start_btn_enabled (deliver_all t s) = start_btn_enabled s
  /\ stop_btn_enabled (deliver_all t s) = stop_btn_enabled s.
Proof.
  induction t as [|e t IH]; intros s Hf; [repeat split|].
  unfold deliver_all in *. cbn [fold_left].
  destruct e; try discriminate Hf;
    match goal with
    | |- context [fold_left _ t ?s0] =>
        destruct (IH s0 Hf) as (H1 & H2 & H3 & H4)
    end;
    rewrite H1, H2, H3, H4; repeat split.
Qed.

(** X15: the signals of a run that has returned, delivered in order to the
    slots they are connected to, leave the window exactly as [on_finished]
    alone does, whatever statuses and ticks were shown in between; and
    before the last of them, [finished_signal], is delivered, the window
    still holds its worker and its buttons are as they were. *)
Theorem delivered_run_resets_the_window
        (env : Env) (ident : pystr) (fuel : nat) (t : list Event) (s : State) :
  run env ident fuel = Some t ->
  deliver_all t s = on_finished s
  /\ worker (deliver_all t s) = None
  /\ start_btn_enabled (deliver_all t s) = true
  /\ identifier_edit_enabled (deliver_all t s) = true
  /\ exists body,
       t = body ++ [FinishedSignal]
       /\ worker (deliver_all body s) = worker s
       /\ objects (deliver_all body s) = objects s
       /\ start_btn_enabled (deliver_all body s) = start_btn_enabled s
       /\ stop_btn_enabled (deliver_all body s) = stop_btn_enabled s.
Proof.
  intros Hrun. unfold run in Hrun.
  destruct (main_loop env ident fuel world0) as [[w' t']|] eqn:Hloop;
    [|discriminate Hrun].
  injection Hrun as <-.
  destruct (main_loop_ends env ident _ _ _ _ Hloop) as (_ & Hfin & _).
  assert (Ht : Log INFO (WorkerStarted ident)
               :: t' ++ [Log INFO WorkerStopping; FinishedSignal]
               = (Log INFO (WorkerStarted ident)
                    :: t' ++ [Log INFO WorkerStopping])
                 ++ [FinishedSignal]).
  { cbn [app]. rewrite <- app_assoc. reflexivity. }
  rewrite Ht.
  assert (Hall : deliver_all
                   ((Log INFO (WorkerStarted ident)
                       :: t' ++ [Log INFO WorkerStopping])
                      ++ [FinishedSignal]) s
                 = on_finished s).
  { unfold deliver_all. rewrite fold_left_app. simpl fold_left at 1.
    apply (on_finished_absorbs_all
             (Log INFO (WorkerStarted ident)
                :: t' ++ [Log INFO WorkerStopping])). }
  rewrite Hall.
  split; [reflexivity|]. split; [reflexivity|].
  split; [reflexivity|]. split; [reflexivity|].
  exists (Log INFO (WorkerStarted ident) :: t' ++ [Log INFO WorkerStopping]).
  split; [reflexivity|].
  apply deliver_all_keeps_worker.
  change (finishes (Log ?a ?b :: ?l)) with (finishes l).
  rewrite finishes_app, Hfin. reflexivity.
Qed.

Lemma delivered_run_resets_the_window_witness :
  let s := on_stop (on_start (set_text worker_1 init)) in
  exists t,
    run (mkEnv (Some 4) (fun _ => Returned response_200)) worker_1 6 = Some t
    /\ deliver_all t s = on_finished s.
Proof.
  intros s. eexists. split; [vm_compute; reflexivity|].
  apply (delivered_run_resets_the_window
           (mkEnv (Some 4) (fun _ => Returned response_200)) worker_1 6 _ s).
  vm_compute. reflexivity.
Defined.

End WindowFacts.

(** ** What the requests carry *)

Lemma in_post_requests q r t : In (Post q r) t -> In r (requests t).
Proof.
  intros H. unfold requests. apply in_flat_map.
  exists (Post q r). split; [exact H | left; reflexivity].
Qed.

Section Payloads.

Variable env : Env.
Variable identifier : pystr.

Lemma attempts_payload todo : forall w q r,
  In (Post q r) (trace (attempts env identifier todo w)) ->
  q = mkPayload identifier vps.
Proof.
  induction todo as [|attempt rest IH]; intros w q r; [intros []|].
  cbn [attempts]. prog.
  destruct (stopped env (checks w)); prog;
    [intros [H|[]]; discriminate H|].
  destruct (responses env (posts w)) as [resp|e]; prog.
  - rewrite report_response_trace.
    intros [H|[H|[H|[H|[H|[]]]]]]; try discriminate H.
    injection H as <- _. reflexivity.
  - intros [H|[H|[H|[H|[H|H]]]]]; try discriminate H.
    + injection H as <- _. reflexivity.
    + apply in_app_or in H. destruct H as [H|H]; [|exact (IH _ q r H)].
      apply in_post_requests in H.
      destruct (backoff_wait_silent env (Z.to_nat (retry_delay attempt))
                  (mkWorld (S (checks w)) (S (posts w)))) as (Hq & _).
      rewrite Hq in H. destruct H.
Qed.

Lemma cycle_payload w q r :
  In (Post q r) (trace (cycle env identifier w)) ->
  q = mkPayload identifier vps.
Proof.
  intros H. apply in_post_requests in H as Hr.
  rewrite cycle_trace, delivery_trace in H.
  apply in_app_or in H. destruct H as [H|H].
  - apply in_app_or in H. destruct H as [H|H];
      [exact (attempts_payload _ _ q r H)|].
    destruct (value (attempts env identifier (range 1 (MAX_RETRIES + 1)) w));
      [destruct H | destruct H as [H|[H|[]]]; discriminate H].
  - apply in_post_requests in H.
    destruct (countdown_silent env (Z.to_nat INTERVAL)
                (after (delivery env identifier w))) as (Hq & _).
    rewrite Hq in H. destruct H.
Qed.

Lemma main_loop_payload fuel : forall w w' t q r,
  main_loop env identifier fuel w = Some (w', t) ->
  In (Post q r) t -> q = mkPayload identifier vps.
Proof.
  induction fuel as [|fuel IH]; intros w w' t q r; [discriminate|].
  rewrite main_loop_step.
  destruct (stopped env (checks w)).
  - intros H. injection H as _ <-. intros [H|[]]. discriminate H.
  - destruct (main_loop env identifier fuel _) as [[w3 t3]|] eqn:Hm;
      [|discriminate].
    intros H. injection H as _ <-.
    intros [H|H]; [discriminate H|].
    apply in_app_or in H. destruct H as [H|H];
      [exact (cycle_payload _ q r H) | exact (IH _ _ _ q r Hm H)].
Qed.

End Payloads.

(** X16: every request of a run that has returned carries the identifier
    the worker was created with and the name "vps", in every cycle and on
    every attempt. *)
Theorem run_sends_only_its_identifier
        (env : Env) (identifier : pystr) (fuel : nat) (t : list Event) :
  run env identifier fuel = Some t ->
  forall q r, In (Post q r) t ->
    p_identifier q = identifier /\ p_name q = vps.
Proof.
  intros Hrun q r Hin. unfold run in Hrun.
  destruct (main_loop env identifier fuel world0) as [[w' t']|] eqn:Hloop;
    [|discriminate Hrun].
  injection Hrun as <-.
  destruct Hin as [H|H]; [discriminate H|].
  apply in_app_or in H. destruct H as [H|[H|[H|[]]]]; try discriminate H.
  rewrite (main_loop_payload env identifier fuel _ _ _ q r Hloop H).
  split; reflexivity.
Qed.

Lemma run_sends_only_its_identifier_witness :
  p_identifier (mkPayload worker_1 vps) = worker_1
  /\ p_name (mkPayload worker_1 vps) = vps.
Proof.
  apply (run_sends_only_its_identifier
           (mkEnv (Some 2) (fun _ => Returned response_200)) worker_1 2
           _ eq_refl
           (mkPayload worker_1 vps) (Returned response_200)).
  simpl. tauto.
Defined.
